(** * escpos: ESC/POS command encoder and raster image pipeline

    A shallow embedding of [escpos.go].  The printer session ([Escpos]) is a
    record, the process-wide logger [beelog] is a list of log entries, and
    every method is a function in a state-and-panic monad over the pair of
    the two.  The byte sink [dst] records each call of its [Write] and
    answers it the way the underlying device would. *)

From Stdlib Require Import ZArith String Ascii List Lia.
From Stdlib Require Import Floats.PrimFloat Numbers.Cyclic.Int63.Uint63.
Set Warnings "-inexact-float".
From stdpp Require Import gmap strings list.

Open Scope Z_scope.

(** ** Machine integers

    Go's [uint8], [uint16] and [byte] conversions keep the low bits; [int]
    is the 64-bit two's complement integer of the platforms the package is
    built for. *)

Definition uint8 (z : Z) : Z := z mod 256.
Definition uint16 (z : Z) : Z := z mod 65536.
Definition byte (z : Z) : Z := z mod 256.

Definition wrap_int (z : Z) : Z := (z + 2 ^ 63) mod 2 ^ 64 - 2 ^ 63.
Definition iadd (a b : Z) : Z := wrap_int (a + b).
Definition isub (a b : Z) : Z := wrap_int (a - b).
Definition imul (a b : Z) : Z := wrap_int (a * b).

(** [len] of a slice and of a string (a string's length is its byte count). *)
Definition len {A} (l : list A) : Z := Z.of_nat (length l).
Definition slen (s : string) : Z := Z.of_nat (String.length s).

(** ** Strings as byte sequences *)

Definition byte_of_ascii (c : ascii) : Z := Z.of_N (N_of_ascii c).
Definition ascii_of_byte (b : Z) : ascii := ascii_of_N (Z.to_N (b mod 256)).

(** [[]byte(s)] *)
Fixpoint bytes_of_string (s : string) : list Z :=
  match s with
  | EmptyString => []
  | String c s' => byte_of_ascii c :: bytes_of_string s'
  end.

(** [string(bs)] *)
Fixpoint string_of_bytes (bs : list Z) : string :=
  match bs with
  | [] => EmptyString
  | b :: bs' => String (ascii_of_byte b) (string_of_bytes bs')
  end.

Definition ESC : ascii := "027"%char.
Definition GS : ascii := "029"%char.

(** The UTF-8 encoding of a rune, as the verb [%c] of [fmt.Sprintf] prints
    it; surrogates and values past U+10FFFF print as U+FFFD. *)
Definition utf8 (r : Z) : list Z :=
  if (r <? 0) || (1114111 <? r) || ((55296 <=? r) && (r <=? 57343))
  then [239; 191; 189]
  else if r <? 128 then [r]
  else if r <? 2048 then [Z.lor 192 (Z.shiftr r 6); Z.lor 128 (Z.land r 63)]
  else if r <? 65536 then
    [Z.lor 224 (Z.shiftr r 12); Z.lor 128 (Z.land (Z.shiftr r 6) 63);
     Z.lor 128 (Z.land r 63)]
  else
    [Z.lor 240 (Z.shiftr r 18); Z.lor 128 (Z.land (Z.shiftr r 12) 63);
     Z.lor 128 (Z.land (Z.shiftr r 6) 63); Z.lor 128 (Z.land r 63)].

(** [fmt.Sprintf(prefix + "%c", r)] *)
Definition Sprintf_c (prefix : string) (r : Z) : string :=
  (prefix ++ string_of_bytes (utf8 r))%string.

(** ** Errors, results and panics *)

Inductive error : Type := Err (msg : string).

Inductive result (A : Type) : Type :=
| Ret (a : A)
| Panic (msg : string).
Arguments Ret {A} a.
Arguments Panic {A} msg.

Definition rbind {A B} (r : result A) (k : A -> result B) : result B :=
  match r with
  | Ret a => k a
  | Panic msg => Panic msg
  end.

(** ** The logger *)

Inductive Level : Type := LevelDebug | LevelWarn | LevelCritical.

Inductive LogArg : Type :=
| ArgInt (z : Z)
| ArgStr (s : string)
| ArgBytes (bs : list Z)
| ArgParams (p : gmap string string).

(** One call of the logger: its level, the format string and the values to
    be formatted into it. *)
Record LogEntry : Type := mkLog { level : Level; format : string; args : list LogArg }.

(** ** The byte sink

    [written] lists the arguments of the calls of [Write], oldest first;
    [respond] is the device: given what was written so far and the new
    chunk, the count and error [Write] returns. *)

Record Writer : Type := mkWriter {
  written : list (list Z);
  respond : list (list Z) -> list Z -> Z * option error
}.

Definition Writer_Write (w : Writer) (p : list Z) : Writer * (Z * option error) :=
  ({| written := written w ++ [p]; respond := respond w |}, respond w (written w) p).

(** ** The printer session *)

Record Escpos : Type := mkEscpos {
  dst : Writer;
  width : Z;
  height : Z;
  underline : Z;
  emphasize : Z;
  upsidedown : Z;
  rotate : Z;
  reverse : Z;
  Verbose : bool
}.

Definition set_dst (w : Writer) (e : Escpos) : Escpos :=
  mkEscpos w (width e) (height e) (underline e) (emphasize e) (upsidedown e)
    (rotate e) (reverse e) (Verbose e).
Definition set_width (v : Z) (e : Escpos) : Escpos :=
  mkEscpos (dst e) v (height e) (underline e) (emphasize e) (upsidedown e)
    (rotate e) (reverse e) (Verbose e).
Definition set_height (v : Z) (e : Escpos) : Escpos :=
  mkEscpos (dst e) (width e) v (underline e) (emphasize e) (upsidedown e)
    (rotate e) (reverse e) (Verbose e).
Definition set_underline (v : Z) (e : Escpos) : Escpos :=
  mkEscpos (dst e) (width e) (height e) v (emphasize e) (upsidedown e)
    (rotate e) (reverse e) (Verbose e).
Definition set_emphasize (v : Z) (e : Escpos) : Escpos :=
  mkEscpos (dst e) (width e) (height e) (underline e) v (upsidedown e)
    (rotate e) (reverse e) (Verbose e).
Definition set_upsidedown (v : Z) (e : Escpos) : Escpos :=
  mkEscpos (dst e) (width e) (height e) (underline e) (emphasize e) v
    (rotate e) (reverse e) (Verbose e).
Definition set_rotate (v : Z) (e : Escpos) : Escpos :=
  mkEscpos (dst e) (width e) (height e) (underline e) (emphasize e)
    (upsidedown e) v (reverse e) (Verbose e).
Definition set_reverse (v : Z) (e : Escpos) : Escpos :=
  mkEscpos (dst e) (width e) (height e) (underline e) (emphasize e)
    (upsidedown e) (rotate e) v (Verbose e).

(** The session together with the global logger. *)
Record World : Type := mkWorld { printer : Escpos; beelog : list LogEntry }.

Definition M (A : Type) : Type := World -> result (A * World).

Definition ret {A} (a : A) : M A := fun m => Ret (a, m).

Definition bind {A B} (c : M A) (k : A -> M B) : M B :=
  fun m =>
    match c m with
    | Ret (a, m') => k a m'
    | Panic msg => Panic msg
    end.

Notation "x <- c1 ;; c2" := (bind c1 (fun x => c2))
  (at level 100, c1 at next level, right associativity).
Notation "c1 ;; c2" := (bind c1 (fun _ => c2))
  (at level 100, right associativity).

Definition panic {A} (msg : string) : M A := fun _ => Panic msg.

Definition lift {A} (r : result A) : M A :=
  fun m => match r with Ret a => Ret (a, m) | Panic msg => Panic msg end.

Definition get : M Escpos := fun m => Ret (printer m, m).

Definition modify (f : Escpos -> Escpos) : M unit :=
  fun m => Ret (tt, mkWorld (f (printer m)) (beelog m)).

Definition log (l : Level) (fmt : string) (a : list LogArg) : M unit :=
  fun m => Ret (tt, mkWorld (printer m) (beelog m ++ [mkLog l fmt a])).

Definition when (b : bool) (c : M unit) : M unit := if b then c else ret tt.

(** [e.dst.Write(data)] *)
Definition dst_Write (data : list Z) : M (Z * option error) :=
  fun m =>
    let (w, r) := Writer_Write (dst (printer m)) data in
    Ret (r, mkWorld (set_dst w (printer m)) (beelog m)).

(** ** Writing *)

Definition reset : M unit :=
  modify (set_width 1) ;;
  modify (set_height 1) ;;
  modify (set_underline 0) ;;
  modify (set_emphasize 0) ;;
  modify (set_upsidedown 0) ;;
  modify (set_rotate 0) ;;
  modify (set_reverse 0).

Definition New (w : Writer) : World -> result (unit * World) :=
  fun m => reset (mkWorld (mkEscpos w 0 0 0 0 0 0 0 false) (beelog m)).

Definition WriteRaw (data : list Z) : M (Z * option error) :=
  e <- get ;;
  (if 0 <? len data then
     when (Verbose e)
       (log LevelDebug "Writing %d bytes: %s\n" [ArgInt (len data); ArgBytes data]) ;;
     _ <- dst_Write data ;;
     ret tt
   else
     when (Verbose e) (log LevelDebug "Wrote NO bytes\n" [])) ;;
  ret (0, None).

Definition Write (data : string) : M (Z * option error) :=
  WriteRaw (bytes_of_string data).

(** ** Commands *)

(** [\x1B@], ESC @ *)
Definition Init : M unit :=
  reset ;;
  _ <- Write (String ESC "@") ;;
  ret tt.

(** [\x1DVA0], GS V A 0 *)
Definition Cut : M unit :=
  _ <- Write (String GS "VA0") ;;
  ret tt.

Definition Linefeed : M unit :=
  _ <- Write (String "010" EmptyString) ;;
  ret tt.

(** [n] is a [uint8]: neither comparison of the source can hold. *)
Definition FormfeedN (n : Z) : M unit :=
  let n := if n <? 0 then 0 else if 255 <? n then 255 else n in
  let s := string_of_bytes [27; 74; n] in
  _ <- Write s ;;
  ret tt.

Definition Formfeed : M unit := FormfeedN 1.

Definition SetFont (font : string) : M unit :=
  f <- (if (font =? "A")%string then ret 0
        else if (font =? "B")%string then ret 1
        else if (font =? "C")%string then ret 2
        else
          log LevelWarn "Invalid font: '%s', defaulting to 'A'" [ArgStr font] ;;
          ret 0) ;;
  _ <- Write (Sprintf_c (String ESC "M") f) ;;
  ret tt.

Definition sendFontSize : M unit :=
  e <- get ;;
  let s := string_of_bytes
    [29; 33;
     uint8 (Z.lor (uint8 (Z.shiftl (uint8 (width e - 1)) 4)) (uint8 (height e - 1)))] in
  _ <- Write s ;;
  ret tt.

(** [\x1D!n], GS ! n; both arguments are [uint8]. *)
Definition SetFontSize (width height : Z) : M unit :=
  if (0 <? width) && (0 <? height) && (width <=? 8) && (height <=? 8) then
    height <- (if 5 <? height then
                 log LevelWarn
                   "change height to 5, because height larger than 5 may cause some error" [] ;;
                 ret 5
               else ret height) ;;
    modify (set_width width) ;;
    modify (set_height height) ;;
    sendFontSize
  else
    log LevelCritical "Invalid font size passed: %d x %d" [ArgInt width; ArgInt height].

Definition sendUnderline : M unit :=
  e <- get ;;
  _ <- Write (string_of_bytes [27; 45; underline e]) ;;
  ret tt.

Definition sendEmphasize : M unit :=
  e <- get ;;
  _ <- Write (string_of_bytes [27; 69; emphasize e]) ;;
  ret tt.

Definition sendUpsidedown : M unit :=
  e <- get ;;
  _ <- Write (string_of_bytes [27; 123; upsidedown e]) ;;
  ret tt.

Definition sendRotate : M unit :=
  e <- get ;;
  _ <- Write (string_of_bytes [27; 86; rotate e]) ;;
  ret tt.

Definition sendReverse : M unit :=
  e <- get ;;
  _ <- Write (string_of_bytes [29; 66; reverse e]) ;;
  ret tt.

(** [x] and [y] are [uint16]. *)
Definition sendMoveX (x : Z) : M unit :=
  _ <- Write (string_of_bytes [27; 36; byte (uint16 (Z.rem x 256)); byte (uint16 (Z.quot x 256))]) ;;
  ret tt.

Definition sendMoveY (y : Z) : M unit :=
  _ <- Write (string_of_bytes [29; 36; byte (uint16 (Z.rem y 256)); byte (uint16 (Z.quot y 256))]) ;;
  ret tt.

Definition SetUnderline (v : Z) : M unit := modify (set_underline v) ;; sendUnderline.
Definition SetEmphasize (u : Z) : M unit := modify (set_emphasize u) ;; sendEmphasize.
Definition SetUpsidedown (v : Z) : M unit := modify (set_upsidedown v) ;; sendUpsidedown.
Definition SetRotate (v : Z) : M unit := modify (set_rotate v) ;; sendRotate.
Definition SetReverse (v : Z) : M unit := modify (set_reverse v) ;; sendReverse.
Definition SetMoveX (x : Z) : M unit := sendMoveX x.

(** Open the drawer, with t=2. *)
Definition Pulse : M unit :=
  _ <- Write (String ESC (String "p" (String "002" EmptyString))) ;;
  ret tt.

(** [\x1Ban], ESC a n *)
Definition SetAlign (align : string) : M unit :=
  a <- (if (align =? "left")%string then ret 0
        else if (align =? "center")%string then ret 1
        else if (align =? "right")%string then ret 2
        else
          log LevelWarn "Invalid alignment: %s" [ArgStr align] ;;
          ret 0) ;;
  _ <- Write (Sprintf_c (String ESC "a") a) ;;
  ret tt.

(** ** More commands *)

(** [\x1Bc5n], ESC c 5 n *)
Definition BanFeedButton (n : Z) : M unit :=
  let s := string_of_bytes [27; 99; 53; n] in
  _ <- Write s ;;
  ret tt.

(** [\x1BBnt], ESC B n t *)
Definition Beep (n : Z) : M unit :=
  let s := string_of_bytes [27; 66; n; 9] in
  _ <- Write s ;;
  ret tt.

(** [\x1BJn], ESC J n; [n] is a [uint8]. *)
Definition FormfeedD (n : Z) : M unit :=
  let n := if n <? 0 then 0 else if 255 <? n then 255 else n in
  let s := string_of_bytes [27; 74; n] in
  _ <- Write s ;;
  ret tt.

(** [\x1B3n], ESC 3 n; the arguments of the variadic [n ...uint8] as a list. *)
Definition SetLineSpace (n : list Z) : M unit :=
  s <- match n with
       | [] => ret (string_of_bytes [27; 50])
       | [n0] => ret (string_of_bytes [27; 51; n0])
       | n0 :: _ =>
           log LevelWarn "Invalid num of params, using first param" [] ;;
           ret (string_of_bytes [27; 51; n0])
       end ;;
  _ <- Write s ;;
  ret tt.

(** Graphics header: ESC ( L, the length in two bytes, [m], [fn], the data. *)
Definition gSend (m fn : Z) (data : list Z) : M unit :=
  let l := iadd (len data) 2 in
  _ <- Write (String ESC "(L") ;;
  _ <- WriteRaw [byte (Z.rem l 256); byte (Z.quot l 256); m; fn] ;;
  _ <- WriteRaw data ;;
  ret tt.

(** ** Parameters *)

(** [strconv.Atoi]: an optional sign and decimal digits, within [int]. *)
Fixpoint digits (s : string) (acc : Z) : option Z :=
  match s with
  | EmptyString => Some acc
  | String c s' =>
      let d := byte_of_ascii c - 48 in
      if (0 <=? d) && (d <=? 9) then digits s' (acc * 10 + d) else None
  end.

Definition ErrSyntax : error := Err "invalid syntax".
Definition ErrRange : error := Err "value out of range".

Definition Atoi (s : string) : Z * option error :=
  match s with
  | EmptyString => (0, Some ErrSyntax)
  | String c rest =>
      let neg := Ascii.eqb c "-" in
      let body := if neg || Ascii.eqb c "+" then rest else s in
      match body with
      | EmptyString => (0, Some ErrSyntax)
      | _ =>
          match digits body 0 with
          | None => (0, Some ErrSyntax)
          | Some n =>
              let v := if neg then - n else n in
              if v <? - 2 ^ 63 then (- 2 ^ 63, Some ErrRange)
              else if 2 ^ 63 - 1 <? v then (2 ^ 63 - 1, Some ErrRange)
              else (v, None)
          end
      end
  end.

(** The truth test of the style switches: [v == "true" || v == "1"]. *)
Definition is_on (v : string) : bool := (v =? "true")%string || (v =? "1")%string.

(** [strings.ToUpper], exact on ASCII; a byte from 0x80 up that stands
    alone is not UTF-8 and comes out as U+FFFD.  [Text] passes strings of
    one byte only. *)
Definition upper_byte (b : Z) : list Z :=
  if 128 <=? b then [239; 191; 189]
  else if (97 <=? b) && (b <=? 122) then [b - 32]
  else [b].

Definition ToUpper (s : string) : string :=
  string_of_bytes (concat (map upper_byte (bytes_of_string s))).

(** [s[lo:hi]] of a string *)
Definition slice (s : string) (lo hi : nat) : result string :=
  if (hi <? lo)%nat || (String.length s <? hi)%nat
  then Panic "runtime error: slice bounds out of range"
  else Ret (String.substring lo (hi - lo) s).

(** The text replacement map. *)
Definition textReplaceMap : list (string * string) :=
  [("&#9;", String "009" EmptyString); ("&#x9;", String "009" EmptyString);
   ("&#10;", String "010" EmptyString); ("&#xA;", String "010" EmptyString);
   ("&apos;", "'"); ("&quot;", String "034" EmptyString);
   ("&gt;", ">"); ("&lt;", "<"); ("&amp;", "&")]%string.

(** [strings.Replace(s, old, new, -1)] for a non-empty [old]: every
    occurrence, left to right, without overlap.  [skip] counts the bytes of
    a matched occurrence still to be dropped. *)
Fixpoint replace_from (old new : string) (skip : nat) (s : string) : string :=
  match s with
  | EmptyString => EmptyString
  | String c s' =>
      match skip with
      | S k => replace_from old new k s'
      | O =>
          if String.prefix old s
          then (new ++ replace_from old new (String.length old - 1) s')%string
          else String c (replace_from old new O s')
      end
  end.

Definition Replace (s old new : string) : string := replace_from old new O s.

(** Run [f] on the value of a key, when the key is there. *)
Definition with_key (params : gmap string string) (k : string)
    (f : string -> M unit) : M unit :=
  match params !! k with
  | Some v => f v
  | None => ret tt
  end.

(** ** Slices and counted loops *)

Declare Scope result_scope.
Delimit Scope result_scope with R.
Notation "x <- c1 ;; c2" := (rbind c1 (fun x => c2))
  (at level 100, c1 at next level, right associativity) : result_scope.

(** [l[i]], read *)
Definition index {T} (l : list T) (i : Z) : result T :=
  if (i <? 0) || (len l <=? i) then Panic "runtime error: index out of range"
  else match l !! Z.to_nat i with
       | Some v => Ret v
       | None => Panic "runtime error: index out of range"
       end.

(** [l[i] = v] *)
Definition store {T} (l : list T) (i : Z) (v : T) : result (list T) :=
  if (i <? 0) || (len l <=? i) then Panic "runtime error: index out of range"
  else Ret (<[Z.to_nat i := v]> l).

(** [make([]byte, n)] *)
Definition make (n : Z) : result (list Z) :=
  if n <? 0 then Panic "runtime error: makeslice: len out of range"
  else Ret (replicate (Z.to_nat n) 0).

Fixpoint foldM {S X} (f : S -> X -> result S) (l : list X) (s : S) : result S :=
  match l with
  | [] => Ret s
  | x :: l' => rbind (f s x) (foldM f l')
  end.

(** The values of [i] in [for i := 0; i < n; i++]. *)
Definition range (n : Z) : list Z := map Z.of_nat (seq 0 (Z.to_nat n)).

(** The values of [x] in [for x := 0; x < n; x = x + 8]. *)
Definition range8 (n : Z) : list Z := map (fun k => 8 * k) (range ((n + 7) / 8)).

(** ** The image pipeline *)

Record pixel : Type := mkPixel { R : Z; G : Z; B : Z; A : Z }.

Definition closestNDivisibleBy8 (n : Z) : Z :=
  let q := Z.quot n 8 in
  let n1 := imul q 8 in
  n1.

(** [float64(i)] of an [int] *)
Definition float64 (z : Z) : float :=
  if z <? 0 then PrimFloat.opp (PrimFloat.of_uint63 (Uint63.of_Z (- z)))
  else PrimFloat.of_uint63 (Uint63.of_Z z).

(** The products and sums are rounded one by one (no fused multiply-add),
    as the compiler does on amd64. *)
Definition luminance (p : pixel) : float :=
  PrimFloat.add
    (PrimFloat.add (PrimFloat.mul (float64 (R p)) 0.299%float)
                   (PrimFloat.mul (float64 (G p)) 0.587%float))
    (PrimFloat.mul (float64 (B p)) 0.114%float).

(** A row is a slice into the grid: what the loop stores into [row] is
    stored into [pixels[y]].  No two rows built by [getPixels] share
    storage, so the row is written back once the inner loop is done. *)
Definition makeGrayscale (pixels : list (list pixel)) : result (list (list pixel)) :=
  (let height := len pixels in
   row0 <- index pixels 0 ;;
   let width := len row0 in
   foldM (fun pixels y =>
            row <- index pixels y ;;
            row <- foldM (fun row x =>
                            pixel <- index row x ;;
                            let value :=
                              if PrimFloat.ltb (luminance pixel) 128%float
                              then 0 else 255 in
                            let pixel := mkPixel value value value (A pixel) in
                            store row x pixel)
                         (range width) row ;;
            store pixels y row)
         (range height) pixels)%R.

Definition removeTransparency (pixels : list (list pixel)) : result (list (list pixel)) :=
  (let height := len pixels in
   row0 <- index pixels 0 ;;
   let width := len row0 in
   foldM (fun pixels y =>
            row <- index pixels y ;;
            row <- foldM (fun row x =>
                            pixel <- index row x ;;
                            let alpha := A pixel in
                            let invAlpha := isub 255 alpha in
                            let pixel :=
                              mkPixel
                                (Z.quot (iadd (imul alpha (R pixel)) (imul invAlpha 255)) 255)
                                (Z.quot (iadd (imul alpha (G pixel)) (imul invAlpha 255)) 255)
                                (Z.quot (iadd (imul alpha (B pixel)) (imul invAlpha 255)) 255)
                                255 in
                            store row x pixel)
                         (range width) row ;;
            store pixels y row)
         (range height) pixels)%R.

Definition getPixelValue (x y : Z) (pixels : list (list pixel)) : result Z :=
  (row <- index pixels y ;;
   pixel <- index row x ;;
   if 0 <? R pixel then Ret 0 else Ret 1)%R.

Definition rasterize (printWidth printHeight : Z) (pixels : list (list pixel))
    : result (list Z * option error) :=
  if negb (Z.rem printWidth 8 =? 0) then
    Ret ([], Some (Err "printWidth must be a multiple of 8"))
  else if negb (Z.rem printHeight 8 =? 0) then
    Ret ([], Some (Err "printHeight must be a multiple of 8"))
  else
    (bytes <- make (Z.shiftr (imul printWidth printHeight) 3) ;;
     bytes <- foldM (fun bytes y =>
                foldM (fun bytes x =>
                   let i := iadd (imul y (Z.shiftr printWidth 3)) (Z.shiftr x 3) in
                   v0 <- getPixelValue (iadd x 0) y pixels ;;
                   v1 <- getPixelValue (iadd x 1) y pixels ;;
                   v2 <- getPixelValue (iadd x 2) y pixels ;;
                   v3 <- getPixelValue (iadd x 3) y pixels ;;
                   v4 <- getPixelValue (iadd x 4) y pixels ;;
                   v5 <- getPixelValue (iadd x 5) y pixels ;;
                   v6 <- getPixelValue (iadd x 6) y pixels ;;
                   v7 <- getPixelValue (iadd x 7) y pixels ;;
                   store bytes i
                     (byte (Z.lor (Z.lor (Z.lor (Z.lor (Z.lor (Z.lor (Z.lor
                        (Z.shiftl v0 7) (Z.shiftl v1 6)) (Z.shiftl v2 5))
                        (Z.shiftl v3 4)) (Z.shiftl v4 3)) (Z.shiftl v5 2))
                        (Z.shiftl v6 1)) v7)))
                   (range8 printWidth) bytes)
                (range printHeight) bytes ;;
     Ret (bytes, None))%R.

Definition rgbaToPixel (c : Z * Z * Z * Z) : pixel :=
  let '(r, g, b, a) := c in
  mkPixel (Z.shiftr r 8) (Z.shiftr g 8) (Z.shiftr b 8) (Z.shiftr a 8).

(** What [image.Decode] hands back: the corner [Bounds().Max] and the
    colour [At(x, y).RGBA()] of every point, four 16-bit channels each. *)
Record image_Image : Type := mkImage {
  Max_X : Z;
  Max_Y : Z;
  At : Z -> Z -> Z * Z * Z * Z
}.

(** ** Operations

    Two things come from outside the package.  [range_textReplaceMap] is
    the order in which the runtime's [range] visits the entries of
    [textReplaceMap], which Go leaves open.  [image_Decode] is the base64
    reader followed by [image.Decode], the PNG format registered: the
    decoded image, or the error. *)

Section Operations.

Variable range_textReplaceMap : list (string * string).
Variable image_Decode : string -> image_Image + error.

Definition textReplace (data : string) : string :=
  fold_left (fun data kv => Replace data (fst kv) (snd kv)) range_textReplaceMap data.

Definition Text (params : gmap string string) (data : string) : M unit :=
  with_key params "Align" (fun align => SetAlign align) ;;
  with_key params "EM" (fun em => when (is_on em) (SetEmphasize 1)) ;;
  with_key params "UL" (fun ul => when (is_on ul) (SetUnderline 1)) ;;
  with_key params "Reverse" (fun reverse => when (is_on reverse) (SetReverse 1)) ;;
  with_key params "Rotate" (fun rotate => when (is_on rotate) (SetRotate 1)) ;;
  with_key params "Font" (fun font =>
    f <- lift (slice font 5 6) ;;
    SetFont (ToUpper f)) ;;
  with_key params "DW" (fun dw =>
    when (is_on dw) (e <- get ;; SetFontSize 2 (height e))) ;;
  with_key params "DH" (fun dh =>
    when (is_on dh) (e <- get ;; SetFontSize (width e) 2)) ;;
  with_key params "Width" (fun width =>
    match Atoi width with
    | (i, None) => e <- get ;; SetFontSize (uint8 i) (height e)
    | (_, Some _) => log LevelCritical "Invalid font width: %s" [ArgStr width]
    end) ;;
  with_key params "Height" (fun height =>
    match Atoi height with
    | (i, None) => e <- get ;; SetFontSize (width e) (uint8 i)
    | (_, Some _) => log LevelCritical "Invalid font height: %s" [ArgStr height]
    end) ;;
  with_key params "X" (fun x =>
    match Atoi x with
    | (i, None) => sendMoveX (uint16 i)
    | (_, Some _) => log LevelCritical "Invalid x param %d" [ArgStr x]
    end) ;;
  with_key params "Y" (fun y =>
    match Atoi y with
    | (i, None) => sendMoveY (uint16 i)
    | (_, Some _) => log LevelCritical "Invalid y param %d" [ArgStr y]
    end) ;;
  let data := textReplace data in
  if 0 <? slen data then _ <- Write data ;; ret tt else ret tt.

Definition Feed (params : gmap string string) : M unit :=
  with_key params "Line" (fun l =>
    match Atoi l with
    | (i, None) => FormfeedN (uint8 i)
    | (_, Some _) => log LevelCritical "Invalid line number %s" [ArgStr l]
    end) ;;
  with_key params "Unit" (fun u =>
    match Atoi u with
    | (i, None) => sendMoveY (uint16 i)
    | (_, Some _) => log LevelCritical "Invalid unit number %s" [ArgStr u]
    end) ;;
  Linefeed ;;
  reset ;;
  sendEmphasize ;;
  sendRotate ;;
  sendReverse ;;
  sendUnderline ;;
  sendUpsidedown ;;
  sendFontSize.

Definition FeedAndCut (params : gmap string string) : M unit :=
  match params !! "Type" with
  | Some t => when (t =? "feed")%string Formfeed
  | None => ret tt
  end ;;
  Cut.

Definition getPixels (imgFile : string) : Z * Z * list (list pixel) * option error :=
  match image_Decode imgFile with
  | inr err => (0, 0, [], Some err)
  | inl img =>
      let width := Max_X img in
      let height := Max_Y img in
      let pixels :=
        fold_left (fun pixels y =>
                     let row :=
                       fold_left (fun row x => row ++ [rgbaToPixel (At img x y)])
                                 (range width) [] in
                     pixels ++ [row])
                  (range height) [] in
      (width, height, pixels, None)
  end.

Definition PrintImage (imgFile : string) : M (option error) :=
  let '(width, height, pixels, err) := getPixels imgFile in
  match err with
  | Some err => ret (Some err)
  | None =>
      pixels <- lift (removeTransparency pixels) ;;
      pixels <- lift (makeGrayscale pixels) ;;
      let printWidth := closestNDivisibleBy8 width in
      let printHeight := closestNDivisibleBy8 height in
      r <- lift (rasterize printWidth printHeight pixels) ;;
      let bytes := fst r in
      let imageHeader := [29; 118; 48; 0] in
      let imageData :=
        imageHeader ++
        [byte (Z.land (Z.shiftr width 3) 255);
         byte (Z.land (Z.shiftr (Z.shiftr width 3) 8) 255);
         byte (Z.land height 255);
         byte (Z.land (Z.shiftr height 8) 255)] in
      let imageData := imageData ++ bytes in
      _ <- WriteRaw imageData ;;
      ret err
  end.

Definition Image (params : gmap string string) (data : string) : M unit :=
  with_key params "Align" (fun align => SetAlign align) ;;
  let widthStr := default EmptyString (params !! "Width") in
  match params !! "Width" with
  | Some _ => ret tt
  | None => log LevelCritical "No width specified on image" []
  end ;;
  let heightStr := default EmptyString (params !! "Height") in
  match params !! "Height" with
  | Some _ => ret tt
  | None => log LevelCritical "No height specified on image" []
  end ;;
  let (width, err) := Atoi widthStr in
  match err with
  | Some _ => log LevelCritical "Invalid image width %s" [ArgStr widthStr]
  | None => ret tt
  end ;;
  let (height, err) := Atoi heightStr in
  match err with
  | Some _ => log LevelCritical "Invalid image height %s" [ArgStr heightStr]
  | None => ret tt
  end ;;
  e <- get ;;
  when (Verbose e)
    (log LevelDebug "Image len:%d w: %d h: %d\n"
         [ArgInt (slen data); ArgInt width; ArgInt height]) ;;
  _ <- PrintImage data ;;
  ret tt.

Definition WriteNode (params : gmap string string) (data : string) : M unit :=
  let debugStr :=
    if negb (data =? EmptyString)%string then
      let str :=
        if 40 <? slen data
        then (String.substring 0 40 data ++ " ...")%string
        else data in
      (" => '" ++ str ++ "'")%string
    else EmptyString in
  let name :=
    match params !! "Name" with
    | Some name => if (name =? EmptyString)%string then "pulse"%string else name
    | None => EmptyString
    end in
  e <- get ;;
  when (Verbose e)
    (log LevelDebug "Write: %s => %+v%s\n"
         [ArgStr name; ArgParams params; ArgStr debugStr]) ;;
  if (name =? "text")%string then Text params data
  else if (name =? "feed")%string then Feed params
  else if (name =? "cut")%string then FeedAndCut params
  else if (name =? "pulse")%string then Pulse
  else if (name =? "image")%string then Image params data
  else ret tt.

End Operations.

(** ** Sample devices, sessions and payloads *)

(** A device that takes every chunk whole. *)
Definition accepting (_ : list (list Z)) (p : list Z) : Z * option error :=
  (len p, None).

(** A device that refuses every chunk. *)
Definition refusing (_ : list (list Z)) (_ : list Z) : Z * option error :=
  (0, Some (Err "write: broken pipe")).

(** A fresh session, as [New] leaves it, on a device that has seen nothing. *)
Definition fresh (device : list (list Z) -> list Z -> Z * option error) : World :=
  mkWorld (mkEscpos (mkWriter [] device) 1 1 0 0 0 0 0 false) [].

(** An 8x8 PNG, 8-bit RGB, every pixel black, in base64. *)
Definition black8_png : string :=
  "iVBORw0KGgoAAAANSUhEUgAAAAgAAAAICAIAAABLbSncAAAADElEQVR42mNgGB4AAADIAAGTvaWOAAAAAElFTkSuQmCC".

(** The image [black8_png] decodes to: opaque black inside the bounds, the
    zero colour outside. *)
Definition black8 : image_Image :=
  mkImage 8 8 (fun x y =>
    if (0 <=? x) && (x <? 8) && (0 <=? y) && (y <? 8)
    then (0, 0, 0, 65535) else (0, 0, 0, 0)).

(** The decoder cut down to the payloads of the examples below:
    [black8_png] decodes to [black8]; anything else is taken for a payload
    in which [image.Decode] finds no known format. *)
Definition sample_Decode (s : string) : image_Image + error :=
  if (s =? black8_png)%string then inl black8
  else inr (Err "image: unknown format").

(** A decoder that hands back an image with no rows, which no PNG holds. *)
Definition empty_Decode (_ : string) : image_Image + error :=
  inl (mkImage 0 0 (fun _ _ => (0, 0, 0, 0))).

(** An 8x8 opaque grid, black in its leftmost column and white elsewhere. *)
Definition left_column8 : list (list pixel) :=
  replicate 8 (mkPixel 0 0 0 255 :: replicate 7 (mkPixel 255 255 255 255)).

(** Two 9x9 PNGs, 8-bit RGB, in base64: one all black, one black with
    its last column and last row white; and what they decode to. *)
Definition black9_png : string :=
  "iVBORw0KGgoAAAANSUhEUgAAAAkAAAAJCAIAAABv85FHAAAADElEQVR42mNgGLkAAAD8AAEy0wUiAAAAAElFTkSuQmCC".

Definition framed9_png : string :=
  "iVBORw0KGgoAAAANSUhEUgAAAAkAAAAJCAIAAABv85FHAAAAFUlEQVR42mNgwAH+///PMBzk/uMGAG5FMs5yZ07GAAAAAElFTkSuQmCC".

Definition black9 : image_Image :=
  mkImage 9 9 (fun x y =>
    if (0 <=? x) && (x <? 9) && (0 <=? y) && (y <? 9)
    then (0, 0, 0, 65535) else (0, 0, 0, 0)).

Definition framed9 : image_Image :=
  mkImage 9 9 (fun x y =>
    if (0 <=? x) && (x <? 8) && (0 <=? y) && (y <? 8) then (0, 0, 0, 65535)
    else if (0 <=? x) && (x <? 9) && (0 <=? y) && (y <? 9)
         then (65535, 65535, 65535, 65535) else (0, 0, 0, 0)).

(** The decoder cut down to these two payloads. *)
Definition nine_Decode (s : string) : image_Image + error :=
  if (s =? black9_png)%string then inl black9
  else if (s =? framed9_png)%string then inl framed9
  else inr (Err "image: unknown format").

(** 16x16 grids, fully opaque. *)
Definition black16 : list (list pixel) := replicate 16 (replicate 16 (mkPixel 0 0 0 255)).
Definition white16 : list (list pixel) := replicate 16 (replicate 16 (mkPixel 255 255 255 255)).

(** ** Vocabulary of the statements *)

(** A command that always returns, whatever the world it starts in. *)
Definition total (c : M unit) : Prop := forall m, exists m', c m = Ret (tt, m').

(** What [WriteRaw] hands to the sink: the data, unless it is empty. *)
Definition emitted (data : list Z) : list (list Z) :=
  if 0 <? len data then [data] else [].

(** The session after the chunks [out] went to its sink. *)
Definition sunk (out : list (list Z)) (e : Escpos) : Escpos :=
  set_dst (mkWriter (written (dst e) ++ out) (respond (dst e))) e.

(** The style fields as [reset] leaves them. *)
Definition defaults (e : Escpos) : Escpos :=
  mkEscpos (dst e) 1 1 0 0 0 0 0 (Verbose e).

(** [m'] differs from [m] by the chunks [out] sent to the sink, and by
    log entries. *)
Definition sends (m : World) (out : list (list Z)) (m' : World) : Prop :=
  printer m' = sunk out (printer m) /\ exists lg, beelog m' = beelog m ++ lg.

(** A command that always returns and touches nothing but the sink, by
    sending chunks, and the log. *)
Definition emits (c : M unit) : Prop :=
  forall m, exists m' out, c m = Ret (tt, m') /\ sends m out m'.

(** What a run left in the sink, or the panic that ended it. *)
Definition sink_of {X} (r : result (X * World)) : result (list (list Z)) :=
  match r with
  | Ret (_, m') => Ret (written (dst (printer m')))
  | Panic msg => Panic msg
  end.

(** A grid of [h] rows of [w] pixels each. *)
Definition grid (w h : Z) (pixels : list (list pixel)) : Prop :=
  len pixels = h /\ Forall (fun row => len row = w) pixels.

(** The loop nest [makeGrayscale] and [removeTransparency] share: every
    pixel, row by row, replaced by its image under [f]. *)
Definition map_grid (f : pixel -> pixel) (pixels : list (list pixel))
    : result (list (list pixel)) :=
  (row0 <- index pixels 0 ;;
   foldM (fun pixels y =>
            row <- index pixels y ;;
            row <- foldM (fun row x => pixel <- index row x ;; store row x (f pixel))
                         (range (len row0)) row ;;
            store pixels y row)
         (range (len pixels)) pixels)%R.

(** The session state the package means to keep: a font scale within
    1..8 by 1..5 and every toggle 0 or 1. *)
Definition wf_style (e : Escpos) : Prop :=
  1 <= width e <= 8 /\ 1 <= height e <= 5 /\
  (underline e = 0 \/ underline e = 1) /\
  (emphasize e = 0 \/ emphasize e = 1) /\
  (upsidedown e = 0 \/ upsidedown e = 1) /\
  (rotate e = 0 \/ rotate e = 1) /\
  (reverse e = 0 \/ reverse e = 1).

(** Whenever [c] returns, a property of the session that held before
    holds after. *)
Definition preserves {X} (I : Escpos -> Prop) (c : M X) : Prop :=
  forall m x m', I (printer m) -> c m = Ret (x, m') -> I (printer m').

(** A property of the session that does not look at the sink. *)
Definition sink_blind (I : Escpos -> Prop) : Prop :=
  forall e w, I e -> I (set_dst w e).

(** The parameter names [Text] looks up. *)
Definition text_keys : list string :=
  ["Align"; "EM"; "UL"; "Reverse"; "Rotate"; "Font"; "DW"; "DH"; "Width"; "Height";
   "X"; "Y"]%string.

(** Of the names [Text] looks up, the map holds at most [k]. *)
Definition only (params : gmap string string) (k : string) : Prop :=
  Forall (fun k' => k' = k \/ params !! k' = None) text_keys.

(** One pixel of [removeTransparency]: composed over opaque white. *)
Definition flatten (p : pixel) : pixel :=
  mkPixel (Z.quot (iadd (imul (A p) (R p)) (imul (isub 255 (A p)) 255)) 255)
          (Z.quot (iadd (imul (A p) (G p)) (imul (isub 255 (A p)) 255)) 255)
          (Z.quot (iadd (imul (A p) (B p)) (imul (isub 255 (A p)) 255)) 255)
          255.

(** One pixel of [makeGrayscale]: black below the threshold, else white. *)
Definition gray (p : pixel) : pixel :=
  let value := if PrimFloat.ltb (luminance p) 128%float then 0 else 255 in
  mkPixel value value value (A p).

(** The bit [getPixelValue] reads at column [x] of row [y]; 0 where the
    grid has no pixel. *)
Definition bit_at (pixels : list (list pixel)) (x y : Z) : Z :=
  match pixels !! Z.to_nat y with
  | Some row => match row !! Z.to_nat x with
                | Some p => if 0 <? R p then 0 else 1
                | None => 0
                end
  | None => 0
  end.

(** The byte [rasterize] stores for the eight pixels from column [x] of
    row [y]. *)
Definition pack8 (pixels : list (list pixel)) (x y : Z) : Z :=
  byte (Z.lor (Z.lor (Z.lor (Z.lor (Z.lor (Z.lor (Z.lor
    (Z.shiftl (bit_at pixels (x + 0) y) 7) (Z.shiftl (bit_at pixels (x + 1) y) 6))
    (Z.shiftl (bit_at pixels (x + 2) y) 5)) (Z.shiftl (bit_at pixels (x + 3) y) 4))
    (Z.shiftl (bit_at pixels (x + 4) y) 3)) (Z.shiftl (bit_at pixels (x + 5) y) 2))
    (Z.shiftl (bit_at pixels (x + 6) y) 1)) (bit_at pixels (x + 7) y)).

(** The bitmap, row after row, one byte for every eight columns. *)
Definition packed (printWidth printHeight : Z) (pixels : list (list pixel)) : list Z :=
  concat (map (fun y => map (fun x => pack8 pixels x y) (range8 printWidth))
              (range printHeight)).

(** The grid [getPixels] builds from a decoded image. *)
Definition pixels_of (img : image_Image) : list (list pixel) :=
  map (fun y => map (fun x => rgbaToPixel (At img x y)) (range (Max_X img)))
      (range (Max_Y img)).

(** A pixel whose four channels are bytes. *)
Definition byte_pixel (p : pixel) : Prop :=
  0 <= R p <= 255 /\ 0 <= G p <= 255 /\ 0 <= B p <= 255 /\ 0 <= A p <= 255.

(** ** The monad *)

Lemma bind_run {X Y} (c : M X) (k : X -> M Y) (m m' : World) (x : X) :
  c m = Ret (x, m') -> bind c k m = k x m'.
Proof. intros H. unfold bind. now rewrite H. Qed.

Lemma bind_panic {X Y} (c : M X) (k : X -> M Y) (m : World) (msg : string) :
  c m = Panic msg -> bind c k m = Panic msg.
Proof. intros H. unfold bind. now rewrite H. Qed.

Lemma total_bind (c : M unit) (k : unit -> M unit) :
  total c -> total (k tt) -> total (bind c k).
Proof.
  intros Hc Hk m. destruct (Hc m) as [m1 H1]. destruct (Hk m1) as [m2 H2].
  exists m2. now rewrite (bind_run _ _ _ _ _ H1).
Qed.

Lemma total_ret : total (ret tt).
Proof. intros m. now exists m. Qed.

Lemma total_when (b : bool) (c : M unit) : total c -> total (when b c).
Proof. destruct b; [easy | intros _; apply total_ret]. Qed.

Lemma total_with_key (params : gmap string string) (k : string) (f : string -> M unit) :
  (forall v, total (f v)) -> total (with_key params k f).
Proof. intros H. unfold with_key. destruct (params !! k); [apply H | apply total_ret]. Qed.

Lemma total_log (l : Level) (fmt : string) (a : list LogArg) : total (log l fmt a).
Proof. intros m. eexists. reflexivity. Qed.

Lemma total_modify (f : Escpos -> Escpos) : total (modify f).
Proof. intros m. eexists. reflexivity. Qed.

(** ** Writing *)

Lemma sunk_nil (e : Escpos) : sunk [] e = e.
Proof. destruct e as [[wr rs] ? ? ? ? ? ? ? ?]. unfold sunk, set_dst. cbn. now rewrite app_nil_r. Qed.

Lemma sunk_sunk (o1 o2 : list (list Z)) (e : Escpos) :
  sunk o2 (sunk o1 e) = sunk (o1 ++ o2) e.
Proof. unfold sunk, set_dst. cbn. now rewrite app_assoc. Qed.

Lemma sends_refl (m : World) : sends m [] m.
Proof. split; [now rewrite sunk_nil | exists []; now rewrite app_nil_r]. Qed.

Lemma sends_trans (m1 m2 m3 : World) (o1 o2 : list (list Z)) :
  sends m1 o1 m2 -> sends m2 o2 m3 -> sends m1 (o1 ++ o2) m3.
Proof.
  intros [P1 [l1 L1]] [P2 [l2 L2]]. split.
  - now rewrite P2, P1, sunk_sunk.
  - exists (l1 ++ l2). now rewrite L2, L1, app_assoc.
Qed.

Lemma log_sends (l : Level) (fmt : string) (a : list LogArg) (m : World) :
  exists m', log l fmt a m = Ret (tt, m') /\ sends m [] m' /\
             beelog m' = beelog m ++ [mkLog l fmt a].
Proof.
  eexists. split; [reflexivity |]. split; [| reflexivity].
  split; cbn; [now rewrite sunk_nil | now eexists].
Qed.

(** [WriteRaw] always answers [(0, nil)]; the data, unless empty, went to
    the sink in one call. *)
Lemma WriteRaw_sends (data : list Z) (m : World) :
  exists m', WriteRaw data m = Ret ((0, None), m') /\ sends m (emitted data) m'.
Proof.
  destruct m as [[[wr rs] w h u em up ro rv vb] lg].
  unfold WriteRaw, emitted, sends, sunk.
  destruct (0 <? len data) eqn:E; destruct vb; cbn;
    eexists; (split; [reflexivity |]); cbn; rewrite ?app_nil_r;
    (split; [reflexivity |]).
  - now eexists.
  - exists []. now rewrite app_nil_r.
  - now eexists.
  - exists []. now rewrite app_nil_r.
Qed.

Lemma Write_sends (s : string) (m : World) :
  exists m', Write s m = Ret ((0, None), m') /\ sends m (emitted (bytes_of_string s)) m'.
Proof. apply WriteRaw_sends. Qed.

Lemma sent_op (s : string) (m : World) :
  exists m', (_ <- Write s ;; ret tt) m = Ret (tt, m') /\
             sends m (emitted (bytes_of_string s)) m'.
Proof.
  destruct (Write_sends s m) as [m' [H S]]. exists m'.
  split; [| exact S]. now rewrite (bind_run _ _ _ _ _ H).
Qed.

Lemma emits_total (c : M unit) : emits c -> total c.
Proof. intros H m. destruct (H m) as [m' [out [E _]]]. now exists m'. Qed.

Lemma emits_ret : emits (ret tt).
Proof. intros m. exists m, []. split; [reflexivity | apply sends_refl]. Qed.

Lemma emits_bind (c : M unit) (k : unit -> M unit) :
  emits c -> emits (k tt) -> emits (bind c k).
Proof.
  intros Hc Hk m. destruct (Hc m) as [m1 [o1 [E1 S1]]].
  destruct (Hk m1) as [m2 [o2 [E2 S2]]]. exists m2, (o1 ++ o2).
  rewrite (bind_run _ _ _ _ _ E1). split; [exact E2 | eapply sends_trans; eauto].
Qed.

Lemma emits_when (b : bool) (c : M unit) : emits c -> emits (when b c).
Proof. destruct b; [easy | intros _; apply emits_ret]. Qed.

Lemma emits_with_key (params : gmap string string) (k : string) (f : string -> M unit) :
  (forall v, emits (f v)) -> emits (with_key params k f).
Proof. intros H. unfold with_key. destruct (params !! k); [apply H | apply emits_ret]. Qed.

Lemma emits_log (l : Level) (fmt : string) (a : list LogArg) : emits (log l fmt a).
Proof. intros m. destruct (log_sends l fmt a m) as [m' [E [S _]]]. now exists m', []. Qed.

Lemma emits_op (s : string) : emits (_ <- Write s ;; ret tt).
Proof. intros m. destruct (sent_op s m) as [m' [E S]]. eauto. Qed.

Lemma emits_FormfeedN (n : Z) : emits (FormfeedN n).
Proof. apply emits_op. Qed.

Lemma emits_sendMoveX (x : Z) : emits (sendMoveX x).
Proof. apply emits_op. Qed.

Lemma emits_sendMoveY (y : Z) : emits (sendMoveY y).
Proof. apply emits_op. Qed.

Lemma emits_Cut : emits Cut.
Proof. apply emits_op. Qed.

Lemma emits_SetAlign (align : string) : emits (SetAlign align).
Proof.
  unfold SetAlign.
  destruct (align =? "left")%string; [apply emits_op |].
  destruct (align =? "center")%string; [apply emits_op |].
  destruct (align =? "right")%string; [apply emits_op |].
  intros m. destruct (log_sends LevelWarn "Invalid alignment: %s" [ArgStr align] m)
    as [m1 [E1 [S1 _]]].
  destruct (sent_op (Sprintf_c (String ESC "a") 0) m1) as [m2 [E2 S2]].
  exists m2, ([] ++ emitted (bytes_of_string (Sprintf_c (String ESC "a") 0))).
  split; [| eapply sends_trans; eauto].
  rewrite (bind_run _ _ m m1 0); [exact E2 |].
  now rewrite (bind_run _ _ _ _ _ E1).
Qed.

Lemma emits_SetFont (font : string) : emits (SetFont font).
Proof.
  unfold SetFont.
  destruct (font =? "A")%string; [apply emits_op |].
  destruct (font =? "B")%string; [apply emits_op |].
  destruct (font =? "C")%string; [apply emits_op |].
  intros m.
  destruct (log_sends LevelWarn "Invalid font: '%s', defaulting to 'A'" [ArgStr font] m)
    as [m1 [E1 [S1 _]]].
  destruct (sent_op (Sprintf_c (String ESC "M") 0) m1) as [m2 [E2 S2]].
  exists m2, ([] ++ emitted (bytes_of_string (Sprintf_c (String ESC "M") 0))).
  split; [| eapply sends_trans; eauto].
  rewrite (bind_run _ _ m m1 0); [exact E2 |].
  now rewrite (bind_run _ _ _ _ _ E1).
Qed.

(** The style commands store, then send. *)
Lemma total_styled (f : Escpos -> Escpos) (g : Escpos -> string) :
  total (modify f ;; e <- get ;; _ <- Write (g e) ;; ret tt).
Proof.
  intros m. destruct (sent_op (g (f (printer m))) (mkWorld (f (printer m)) (beelog m)))
    as [m' [E _]].
  exists m'. exact E.
Qed.

Lemma total_SetEmphasize (u : Z) : total (SetEmphasize u).
Proof. apply total_styled with (g := fun e => string_of_bytes [27; 69; emphasize e]). Qed.

Lemma total_SetUnderline (v : Z) : total (SetUnderline v).
Proof. apply total_styled with (g := fun e => string_of_bytes [27; 45; underline e]). Qed.

Lemma total_SetReverse (v : Z) : total (SetReverse v).
Proof. apply total_styled with (g := fun e => string_of_bytes [29; 66; reverse e]). Qed.

Lemma total_SetRotate (v : Z) : total (SetRotate v).
Proof. apply total_styled with (g := fun e => string_of_bytes [27; 86; rotate e]). Qed.

(** ** Sink errors *)

(** C2, as the code has it: for every write issued through the session,
    [WriteRaw] returns [(0, nil)] whatever the sink's write call answered,
    be it an error; non-empty data reached the sink in one call, empty data
    none.  A sink error is dropped, not propagated. *)
Theorem WriteRaw_answers_nil (data : list Z) (m : World) :
  exists m',
    WriteRaw data m = Ret ((0, None), m') /\
    written (dst (printer m')) = written (dst (printer m)) ++ emitted data.
Proof.
  destruct (WriteRaw_sends data m) as [m' [E [P _]]].
  exists m'. split; [exact E |]. now rewrite P.
Qed.

(** C2 fails as stated: on a device that refuses every chunk the sink's
    write call returns an error, and [WriteRaw] still returns no error. *)
Lemma WriteRaw_sink_error_lost :
  snd (Writer_Write (dst (printer (fresh refusing))) [10])
    = (0, Some (Err "write: broken pipe")) /\
  exists m',
    WriteRaw [10] (fresh refusing) = Ret ((0, None), m') /\
    written (dst (printer m')) = [[10]].
Proof. split; [reflexivity |]. eexists. split; reflexivity. Qed.

(** ** Font size *)

Lemma font_size_byte (w h : Z) :
  1 <= w <= 8 -> 1 <= h <= 5 ->
  byte_of_ascii (ascii_of_byte
    (uint8 (Z.lor (uint8 (Z.shiftl (uint8 (w - 1)) 4)) (uint8 (h - 1)))))
  = Z.lor (Z.shiftl (w - 1) 4) (h - 1).
Proof.
  intros Hw Hh.
  assert (Ew : w = 1 \/ w = 2 \/ w = 3 \/ w = 4 \/ w = 5 \/ w = 6 \/ w = 7 \/ w = 8) by lia.
  assert (Eh : h = 1 \/ h = 2 \/ h = 3 \/ h = 4 \/ h = 5) by lia.
  repeat (destruct Ew as [-> | Ew]); try subst w;
    repeat (destruct Eh as [-> | Eh]); try subst h; reflexivity.
Qed.

Lemma sendFontSize_sends (m : World) :
  exists m',
    sendFontSize m = Ret (tt, m') /\
    sends m
      [[29; 33;
        byte_of_ascii (ascii_of_byte
          (uint8 (Z.lor (uint8 (Z.shiftl (uint8 (width (printer m) - 1)) 4))
                        (uint8 (height (printer m) - 1)))))]] m'.
Proof. unfold sendFontSize. apply sent_op. Qed.

(** C4: for [w] and [h] in 1..8, [SetFontSize] stores width [w] and height
    [min h 5] and sends the three bytes GS ! n with
    n = (width-1)<<4 | (height-1) of the stored values; for [w] or [h]
    outside 1..8 it logs one entry at level Critical, sends nothing and
    leaves the session as it was. *)
Theorem SetFontSize_spec (w h : Z) (m : World) :
  (1 <= w <= 8 /\ 1 <= h <= 8 ->
   exists m',
     SetFontSize w h m = Ret (tt, m') /\
     width (printer m') = w /\
     height (printer m') = Z.min h 5 /\
     written (dst (printer m')) =
       written (dst (printer m)) ++
       [[29; 33; Z.lor (Z.shiftl (width (printer m') - 1) 4) (height (printer m') - 1)]]) /\
  (~ (1 <= w <= 8 /\ 1 <= h <= 8) ->
   exists entry,
     SetFontSize w h m = Ret (tt, mkWorld (printer m) (beelog m ++ [entry])) /\
     level entry = LevelCritical).
Proof.
  split.
  - intros [Hw Hh]. unfold SetFontSize.
    replace ((0 <? w) && (0 <? h) && (w <=? 8) && (h <=? 8)) with true
      by (symmetry; repeat (apply andb_true_intro; split); lia).
    set (h' := Z.min h 5).
    assert (Hh' : 1 <= h' <= 5) by (unfold h'; lia).
    assert (Hstore : exists m1,
      (height <- (if 5 <? h then
                    log LevelWarn
                      "change height to 5, because height larger than 5 may cause some error" [] ;;
                    ret 5
                  else ret h) ;;
       modify (set_width w) ;; modify (set_height height) ;; ret tt) m = Ret (tt, m1) /\
      printer m1 = set_height h' (set_width w (printer m))).
    { destruct (Z.ltb_spec 5 h); eexists; (split; [reflexivity |]); cbn;
        unfold h'; f_equal; lia. }
    destruct Hstore as [m1 [E1 P1]].
    destruct (sendFontSize_sends m1) as [m2 [E2 [P2 _]]].
    exists m2. rewrite P2, P1. cbn.
    rewrite font_size_byte by assumption.
    repeat split; try reflexivity.
    revert E1 E2. unfold bind.
    destruct (5 <? h); cbn; intros E1; injection E1 as <-; intros E2; exact E2.
  - intros Hout. unfold SetFontSize.
    replace ((0 <? w) && (0 <? h) && (w <=? 8) && (h <=? 8)) with false.
    + eexists. split; reflexivity.
    + symmetry. apply not_true_is_false. intros H. apply Hout.
      repeat (apply andb_prop in H; destruct H as [H ?]). lia.
Qed.

(** C4 at 3x7 (in range, height capped) and at 9x1 (out of range). *)
Lemma SetFontSize_spec_witness :
  (exists m',
     SetFontSize 3 7 (fresh accepting) = Ret (tt, m') /\
     width (printer m') = 3 /\ height (printer m') = 5 /\
     written (dst (printer m')) = [[29; 33; 36]]) /\
  (exists entry,
     SetFontSize 9 1 (fresh accepting)
       = Ret (tt, mkWorld (printer (fresh accepting)) [entry]) /\
     level entry = LevelCritical).
Proof.
  destruct (SetFontSize_spec 3 7 (fresh accepting)) as [Hin _].
  destruct (SetFontSize_spec 9 1 (fresh accepting)) as [_ Hout].
  split.
  - destruct Hin as [m' [E [Hw [Hh Hs]]]]; [lia |].
    exists m'. rewrite Hw, Hh in Hs. repeat split; assumption.
  - destruct Hout as [entry [E L]]; [lia |].
    exists entry. split; assumption.
Defined.

(** ** Alignment *)

(** C8: for every alignment name other than left, center and right,
    [SetAlign] logs a warning and still sends the three bytes ESC a 0. *)
Theorem SetAlign_unknown (align : string) (m : World) :
  align <> "left"%string -> align <> "center"%string -> align <> "right"%string ->
  exists m' dbg,
    SetAlign align m = Ret (tt, m') /\
    printer m' = sunk [[27; 97; 0]] (printer m) /\
    beelog m' =
      beelog m ++ mkLog LevelWarn "Invalid alignment: %s" [ArgStr align] :: dbg.
Proof.
  intros Hl Hc Hr. unfold SetAlign.
  apply String.eqb_neq in Hl, Hc, Hr. rewrite Hl, Hc, Hr.
  destruct (log_sends LevelWarn "Invalid alignment: %s" [ArgStr align] m)
    as [m1 [E1 [[P1 _] L1]]].
  destruct (sent_op (Sprintf_c (String ESC "a") 0) m1) as [m2 [E2 [P2 [dbg L2]]]].
  exists m2, dbg. split; [| split].
  - rewrite (bind_run _ _ m m1 0); [exact E2 |].
    now rewrite (bind_run _ _ _ _ _ E1).
  - rewrite P2, P1, sunk_sunk. reflexivity.
  - rewrite L2, L1, <- app_assoc. reflexivity.
Qed.

(** C8 at the name bogus. *)
Lemma SetAlign_unknown_witness :
  exists m' dbg,
    SetAlign "bogus" (fresh accepting) = Ret (tt, m') /\
    printer m' = sunk [[27; 97; 0]] (printer (fresh accepting)) /\
    beelog m' = mkLog LevelWarn "Invalid alignment: %s" [ArgStr "bogus"] :: dbg.
Proof.
  apply (SetAlign_unknown "bogus" (fresh accepting)); discriminate.
Defined.

(** ** Dispatch *)

Lemma Pulse_sends (m : World) :
  exists m', Pulse m = Ret (tt, m') /\ sends m [[27; 112; 2]] m'.
Proof. unfold Pulse. apply sent_op. Qed.

Lemma WriteNode_dispatch (order : list (string * string))
    (decode : string -> image_Image + error)
    (params : gmap string string) (data : string) (m : World) (c : M unit)
    (name : string) :
  name = match params !! "Name" with
         | Some name => if (name =? EmptyString)%string then "pulse"%string else name
         | None => EmptyString
         end ->
  c = (if (name =? "text")%string then Text order params data
       else if (name =? "feed")%string then Feed params
       else if (name =? "cut")%string then FeedAndCut params
       else if (name =? "pulse")%string then Pulse
       else if (name =? "image")%string then Image decode params data
       else ret tt) ->
  exists m1,
    printer m1 = printer m /\ WriteNode order decode params data m = c m1.
Proof.
  intros -> ->. unfold WriteNode. destruct m as [e lg].
  destruct (Verbose e) eqn:V; eexists; (split; [| cbn; rewrite V; reflexivity]);
    reflexivity.
Qed.

(** C9, as the code has it: when the parameter map maps Name to the empty
    string, [WriteNode] performs the pulse and the drawer-kick bytes
    ESC p 2 go to the sink; when the map has no Name entry, no operation is
    selected and the session and its sink are left as they were. *)
Theorem WriteNode_empty_name (order : list (string * string))
    (decode : string -> image_Image + error)
    (params : gmap string string) (data : string) (m : World) :
  (params !! "Name" = Some EmptyString ->
   exists m',
     WriteNode order decode params data m = Ret (tt, m') /\
     printer m' = sunk [[27; 112; 2]] (printer m)) /\
  (params !! "Name" = None ->
   exists m',
     WriteNode order decode params data m = Ret (tt, m') /\
     printer m' = printer m).
Proof.
  split; intros HN.
  - destruct (WriteNode_dispatch order decode params data m Pulse "pulse")
      as [m1 [P1 E1]]; [now rewrite HN | reflexivity |].
    destruct (Pulse_sends m1) as [m' [E [P _]]].
    exists m'. split; [now rewrite E1 | now rewrite P, P1].
  - destruct (WriteNode_dispatch order decode params data m (ret tt) EmptyString)
      as [m1 [P1 E1]]; [now rewrite HN | reflexivity |].
    exists m1. split; [now rewrite E1 | exact P1].
Qed.

(** C9 on the map with Name empty and on the empty map. *)
Lemma WriteNode_empty_name_witness :
  (exists m',
     WriteNode textReplaceMap sample_Decode {[ "Name" := EmptyString ]} EmptyString
       (fresh accepting) = Ret (tt, m') /\
     printer m' = sunk [[27; 112; 2]] (printer (fresh accepting))) /\
  (exists m',
     WriteNode textReplaceMap sample_Decode ∅ EmptyString (fresh accepting)
       = Ret (tt, m') /\
     printer m' = printer (fresh accepting)).
Proof.
  destruct (WriteNode_empty_name textReplaceMap sample_Decode
              {[ "Name" := EmptyString ]} EmptyString (fresh accepting)) as [H1 _].
  destruct (WriteNode_empty_name textReplaceMap sample_Decode
              ∅ EmptyString (fresh accepting)) as [_ H2].
  split; [apply H1 | apply H2]; reflexivity.
Defined.

(** C9 fails as stated: with no Name entry nothing is written. *)
Lemma WriteNode_no_name_no_pulse :
  (∅ : gmap string string) !! "Name" = None /\
  exists m',
    WriteNode textReplaceMap sample_Decode ∅ EmptyString (fresh accepting)
      = Ret (tt, m') /\
    written (dst (printer m')) = [].
Proof. split; [reflexivity |]. eexists. split; reflexivity. Qed.

(** ** Text *)

Ltac pass H :=
  let m' := fresh "m" in
  let E := fresh "E" in
  destruct H as [m' E]; rewrite (bind_run _ _ _ _ _ E); clear E; cbv beta.

(** C10: [Text] is not total.  Whenever the Font key is present with a
    value shorter than 6 bytes (the length Go's [len] reports), the slice
    [font[5:6]] is out of range and evaluation stops in a run-time panic;
    no font is selected. *)
Theorem Text_short_font_panics (order : list (string * string))
    (params : gmap string string) (data font : string) (m : World) :
  params !! "Font" = Some font ->
  (String.length font < 6)%nat ->
  Text order params data m = Panic "runtime error: slice bounds out of range".
Proof.
  intros HF Hlen. unfold Text.
  pass (total_with_key params "Align" (fun align => SetAlign align)
          (fun v => emits_total _ (emits_SetAlign v)) m).
  pass (total_with_key params "EM" (fun em => when (is_on em) (SetEmphasize 1))
          (fun v => total_when _ _ (total_SetEmphasize 1)) m0).
  pass (total_with_key params "UL" (fun ul => when (is_on ul) (SetUnderline 1))
          (fun v => total_when _ _ (total_SetUnderline 1)) m1).
  pass (total_with_key params "Reverse" (fun rv => when (is_on rv) (SetReverse 1))
          (fun v => total_when _ _ (total_SetReverse 1)) m2).
  pass (total_with_key params "Rotate" (fun ro => when (is_on ro) (SetRotate 1))
          (fun v => total_when _ _ (total_SetRotate 1)) m3).
  apply bind_panic. unfold with_key. rewrite HF.
  apply bind_panic. unfold lift, slice.
  apply Nat.ltb_lt in Hlen. rewrite Hlen. reflexivity.
Qed.

(** C10 at the font name fontA, five bytes long. *)
Lemma Text_short_font_panics_witness :
  Text textReplaceMap {[ "Font" := "fontA"%string ]} "hi" (fresh accepting)
    = Panic "runtime error: slice bounds out of range".
Proof.
  apply (Text_short_font_panics textReplaceMap {[ "Font" := "fontA"%string ]}
           "hi" "fontA" (fresh accepting)).
  - reflexivity.
  - cbn. lia.
Defined.

(** ** Feed *)

Lemma reset_run (m : World) :
  reset m = Ret (tt, mkWorld (defaults (printer m)) (beelog m)).
Proof. reflexivity. Qed.

Lemma styled_sends (g : Escpos -> string) (m : World) :
  exists m',
    (e <- get ;; _ <- Write (g e) ;; ret tt) m = Ret (tt, m') /\
    sends m (emitted (bytes_of_string (g (printer m)))) m'.
Proof. apply (sent_op (g (printer m)) m). Qed.

(** C7: whatever the session state and the parameter map, [Feed] returns
    with width 1, height 1 and the five toggles 0, and the last things it
    sent, after the line feed, are the emphasize, rotate, reverse,
    underline, upside-down and font-size commands at those values. *)
Theorem Feed_resets (params : gmap string string) (m : World) :
  exists m' pre,
    Feed params m = Ret (tt, m') /\
    width (printer m') = 1 /\ height (printer m') = 1 /\
    underline (printer m') = 0 /\ emphasize (printer m') = 0 /\
    upsidedown (printer m') = 0 /\ rotate (printer m') = 0 /\
    reverse (printer m') = 0 /\
    written (dst (printer m')) =
      written (dst (printer m)) ++ pre ++
      [[10]; [27; 69; 0]; [27; 86; 0]; [29; 66; 0]; [27; 45; 0]; [27; 123; 0];
       [29; 33; 0]].
Proof.
  unfold Feed.
  destruct (emits_with_key params "Line"
              (fun l => match Atoi l with
                        | (i, None) => FormfeedN (uint8 i)
                        | (_, Some _) =>
                            log LevelCritical "Invalid line number %s" [ArgStr l]
                        end)
              (fun l => match Atoi l as r
                          return emits (match r with
                                        | (i, None) => FormfeedN (uint8 i)
                                        | (_, Some _) =>
                                            log LevelCritical
                                              "Invalid line number %s" [ArgStr l]
                                        end)
                        with
                        | (i, None) => emits_FormfeedN _
                        | (_, Some _) => emits_log _ _ _
                        end) m) as [m1 [o1 [E1 [P1 _]]]].
  rewrite (bind_run _ _ _ _ _ E1); clear E1; cbv beta.
  destruct (emits_with_key params "Unit"
              (fun u => match Atoi u with
                        | (i, None) => sendMoveY (uint16 i)
                        | (_, Some _) =>
                            log LevelCritical "Invalid unit number %s" [ArgStr u]
                        end)
              (fun u => match Atoi u as r
                          return emits (match r with
                                        | (i, None) => sendMoveY (uint16 i)
                                        | (_, Some _) =>
                                            log LevelCritical
                                              "Invalid unit number %s" [ArgStr u]
                                        end)
                        with
                        | (i, None) => emits_sendMoveY _
                        | (_, Some _) => emits_log _ _ _
                        end) m1) as [m2 [o2 [E2 [P2 _]]]].
  rewrite (bind_run _ _ _ _ _ E2); clear E2; cbv beta.
  destruct (sent_op (String "010" EmptyString) m2) as [m3 [E3 [P3 _]]].
  rewrite (bind_run _ _ _ _ _ E3); clear E3; cbv beta.
  rewrite (bind_run _ _ _ _ _ (reset_run m3)); cbv beta.
  set (m4 := mkWorld (defaults (printer m3)) (beelog m3)).
  destruct (styled_sends (fun e => string_of_bytes [27; 69; emphasize e]) m4)
    as [m5 [E5 [P5 _]]].
  rewrite (bind_run _ _ _ _ _ E5); clear E5; cbv beta.
  destruct (styled_sends (fun e => string_of_bytes [27; 86; rotate e]) m5)
    as [m6 [E6 [P6 _]]].
  rewrite (bind_run _ _ _ _ _ E6); clear E6; cbv beta.
  destruct (styled_sends (fun e => string_of_bytes [29; 66; reverse e]) m6)
    as [m7 [E7 [P7 _]]].
  rewrite (bind_run _ _ _ _ _ E7); clear E7; cbv beta.
  destruct (styled_sends (fun e => string_of_bytes [27; 45; underline e]) m7)
    as [m8 [E8 [P8 _]]].
  rewrite (bind_run _ _ _ _ _ E8); clear E8; cbv beta.
  destruct (styled_sends (fun e => string_of_bytes [27; 123; upsidedown e]) m8)
    as [m9 [E9 [P9 _]]].
  rewrite (bind_run _ _ _ _ _ E9); clear E9; cbv beta.
  destruct (sendFontSize_sends m9) as [m10 [E10 [P10 _]]].
  exists m10, (o1 ++ o2). split; [exact E10 |].
  subst m4. cbn in P5. rewrite P5 in P6. cbn in P6. rewrite P6 in P7. cbn in P7.
  rewrite P7 in P8. cbn in P8. rewrite P8 in P9. cbn in P9.
  rewrite P9 in P10. cbn in P10.
  rewrite P10, P3, P2, P1. cbn.
  repeat split; try reflexivity.
  rewrite <- !app_assoc. reflexivity.
Qed.

(** ** Machine arithmetic *)

Ltac divlia := Z.to_euclidean_division_equations; lia.

Lemma wrap_int_small (z : Z) : - 2 ^ 63 <= z < 2 ^ 63 -> wrap_int z = z.
Proof. intros H. unfold wrap_int. rewrite Z.mod_small; lia. Qed.

Lemma closestNDivisibleBy8_floor (n : Z) :
  0 <= n < 2 ^ 31 -> closestNDivisibleBy8 n = n / 8 * 8.
Proof.
  intros H. unfold closestNDivisibleBy8, imul.
  rewrite Z.quot_div_nonneg by lia.
  apply wrap_int_small. divlia.
Qed.

(** ** Slices and loops *)

Lemma len_nonneg {T} (l : list T) : 0 <= len l.
Proof. unfold len. lia. Qed.

Lemma index_ok {T} (l : list T) (i : Z) :
  0 <= i < len l -> exists v, index l i = Ret v /\ l !! Z.to_nat i = Some v.
Proof.
  intros H. unfold index.
  replace ((i <? 0) || (len l <=? i)) with false
    by (symmetry; apply orb_false_intro; lia).
  destruct (lookup_lt_is_Some_2 l (Z.to_nat i)) as [v Hv]; [unfold len in H; lia |].
  exists v. now rewrite Hv.
Qed.

Lemma store_ok {T} (l : list T) (i : Z) (v : T) :
  0 <= i < len l -> store l i v = Ret (<[Z.to_nat i := v]> l).
Proof.
  intros H. unfold store.
  now replace ((i <? 0) || (len l <=? i)) with false
    by (symmetry; apply orb_false_intro; lia).
Qed.

Lemma len_insert {T} (l : list T) (i : nat) (v : T) : len (<[i := v]> l) = len l.
Proof. unfold len. now rewrite length_insert. Qed.

Lemma rbind_ret_ex {X Y} (r : result X) (k : X -> Y) (P : X -> Prop) :
  (exists a, r = Ret a /\ P a) ->
  exists a, rbind r (fun a => Ret (k a)) = Ret (k a) /\ P a.
Proof. intros [a [-> Ha]]. now exists a. Qed.

(** A loop whose body keeps an invariant, and returns whenever the
    invariant holds, returns with the invariant. *)
Lemma foldM_inv {S X} (f : S -> X -> result S) (I : S -> Prop) (Q : X -> Prop)
    (l : list X) (s : S) :
  I s -> Forall Q l ->
  (forall s x, I s -> Q x -> exists s', f s x = Ret s' /\ I s') ->
  exists s', foldM f l s = Ret s' /\ I s'.
Proof.
  intros Hs Hl Hf. revert s Hs.
  induction Hl as [| x l Hx Hl IH]; intros s Hs; cbn.
  - now exists s.
  - destruct (Hf s x Hs Hx) as [s1 [E1 I1]]. rewrite E1. cbn. now apply IH.
Qed.

Lemma range_bounds (n : Z) : Forall (fun i => 0 <= i < n) (range n).
Proof.
  unfold range. apply Forall_map, Forall_seq. intros j Hj. cbn. lia.
Qed.

Lemma len_range (n : Z) : 0 <= n -> len (range n) = n.
Proof. intros H. unfold len, range. rewrite length_map, length_seq. lia. Qed.

Lemma range8_bounds (n : Z) :
  0 <= n -> n mod 8 = 0 ->
  Forall (fun x => 0 <= x /\ x + 8 <= n /\ x mod 8 = 0) (range8 n).
Proof.
  intros Hn H8. unfold range8. apply Forall_map.
  eapply Forall_impl; [apply range_bounds |].
  intros k Hk. cbn beta in *.
  repeat split; divlia.
Qed.

(** ** The grid keeps its shape *)

Lemma grid_row (w h : Z) (pixels : list (list pixel)) (y : Z) :
  grid w h pixels -> 0 <= y < h ->
  exists row, index pixels y = Ret row /\ len row = w.
Proof.
  intros [Hh Hw] Hy.
  destruct (index_ok pixels y) as [row [E L]]; [lia |].
  exists row. split; [exact E |].
  exact (Forall_lookup_1 _ _ _ _ Hw L).
Qed.

Lemma map_grid_grid (f : pixel -> pixel) (w h : Z) (pixels : list (list pixel)) :
  grid w h pixels -> 1 <= h ->
  exists pixels', map_grid f pixels = Ret pixels' /\ grid w h pixels'.
Proof.
  intros Hg Hh. unfold map_grid.
  destruct (grid_row w h pixels 0 Hg) as [row0 [E0 W0]]; [lia |].
  rewrite E0. cbn [rbind]. rewrite W0. destruct Hg as [Hlen Hrows]. rewrite Hlen.
  apply foldM_inv with (Q := fun y => 0 <= y < h);
    [split; assumption | apply range_bounds |].
  intros s y Hs Hy.
  destruct (grid_row w h s y Hs Hy) as [row [E W]]. rewrite E. cbn [rbind].
  destruct (foldM_inv
              (fun row x => rbind (index row x) (fun pixel => store row x (f pixel)))
              (fun r => len r = w) (fun x => 0 <= x < w) (range w) row W
              (range_bounds w)) as [row' [E' W']].
  { intros r x Hr Hx. destruct (index_ok r x) as [p [Ep _]]; [lia |].
    rewrite Ep. cbn [rbind]. rewrite store_ok by lia.
    eexists. split; [reflexivity |]. now rewrite len_insert. }
  rewrite E'. cbn [rbind]. destruct Hs as [Hsl Hsr].
  rewrite store_ok by lia. eexists. split; [reflexivity |].
  split; [now rewrite len_insert | now apply Forall_insert].
Qed.

Lemma removeTransparency_grid (w h : Z) (pixels : list (list pixel)) :
  grid w h pixels -> 1 <= h ->
  exists pixels', removeTransparency pixels = Ret pixels' /\ grid w h pixels'.
Proof.
  exact (map_grid_grid
    (fun pixel =>
       mkPixel
         (Z.quot (iadd (imul (A pixel) (R pixel)) (imul (isub 255 (A pixel)) 255)) 255)
         (Z.quot (iadd (imul (A pixel) (G pixel)) (imul (isub 255 (A pixel)) 255)) 255)
         (Z.quot (iadd (imul (A pixel) (B pixel)) (imul (isub 255 (A pixel)) 255)) 255)
         255) w h pixels).
Qed.

Lemma makeGrayscale_grid (w h : Z) (pixels : list (list pixel)) :
  grid w h pixels -> 1 <= h ->
  exists pixels', makeGrayscale pixels = Ret pixels' /\ grid w h pixels'.
Proof.
  exact (map_grid_grid
    (fun pixel =>
       let value := if PrimFloat.ltb (luminance pixel) 128%float then 0 else 255 in
       mkPixel value value value (A pixel)) w h pixels).
Qed.

Lemma getPixelValue_ok (w h : Z) (pixels : list (list pixel)) (x y : Z) :
  grid w h pixels -> 0 <= x < w -> 0 <= y < h ->
  exists v, getPixelValue x y pixels = Ret v.
Proof.
  intros Hg Hx Hy. unfold getPixelValue.
  destruct (grid_row w h pixels y Hg Hy) as [row [E W]]. rewrite E. cbn [rbind].
  destruct (index_ok row x) as [p [Ep _]]; [lia |]. rewrite Ep. cbn [rbind].
  destruct (0 <? R p); eauto.
Qed.

(** ** Packing *)

Lemma rasterize_len (w h printWidth printHeight : Z) (pixels : list (list pixel)) :
  grid w h pixels ->
  0 <= printWidth <= w -> 0 <= printHeight <= h ->
  printWidth mod 8 = 0 -> printHeight mod 8 = 0 ->
  printWidth < 2 ^ 31 -> printHeight < 2 ^ 31 ->
  exists bytes,
    rasterize printWidth printHeight pixels = Ret (bytes, None) /\
    len bytes = printWidth * printHeight / 8.
Proof.
  intros Hg Hpw Hph Mw Mh Bw Bh. unfold rasterize.
  rewrite (Z.rem_mod_nonneg printWidth 8), Mw by lia.
  rewrite (Z.rem_mod_nonneg printHeight 8), Mh by lia. cbn [Z.eqb negb].
  assert (Hmul : imul printWidth printHeight = printWidth * printHeight)
    by (apply wrap_int_small; nia).
  rewrite Hmul, Z.shiftr_div_pow2 by lia. change (2 ^ 3) with 8.
  set (n := printWidth * printHeight / 8).
  assert (Hn : 0 <= n) by (unfold n; apply Z.div_pos; nia).
  unfold make. replace (n <? 0) with false by (symmetry; lia). cbn [rbind].
  assert (Hn8 : printWidth * printHeight = 8 * n).
  { unfold n. assert ((printWidth * printHeight) mod 8 = 0).
    { rewrite <- Z.mul_mod_idemp_l, Mw by lia. reflexivity. }
    divlia. }
  apply rbind_ret_ex with (k := fun bytes => (bytes, @None error))
                          (P := fun bytes => len bytes = n).
  apply foldM_inv with (Q := fun y => 0 <= y < printHeight).
  - unfold len. rewrite length_replicate. lia.
  - apply range_bounds.
  - intros s y Hs Hy.
    apply foldM_inv with (Q := fun x => 0 <= x /\ x + 8 <= printWidth /\ x mod 8 = 0);
      [exact Hs | apply range8_bounds; lia |].
    intros b x Hb (Hx0 & Hx8 & Hxm). cbv zeta.
    assert (Hadd : forall j, 0 <= j <= 7 -> iadd x j = x + j)
      by (intros j Hj; apply wrap_int_small; lia).
    rewrite !Hadd by lia.
    destruct (getPixelValue_ok w h pixels (x + 0) y Hg) as [v0 ->]; [lia | lia |].
    destruct (getPixelValue_ok w h pixels (x + 1) y Hg) as [v1 ->]; [lia | lia |].
    destruct (getPixelValue_ok w h pixels (x + 2) y Hg) as [v2 ->]; [lia | lia |].
    destruct (getPixelValue_ok w h pixels (x + 3) y Hg) as [v3 ->]; [lia | lia |].
    destruct (getPixelValue_ok w h pixels (x + 4) y Hg) as [v4 ->]; [lia | lia |].
    destruct (getPixelValue_ok w h pixels (x + 5) y Hg) as [v5 ->]; [lia | lia |].
    destruct (getPixelValue_ok w h pixels (x + 6) y Hg) as [v6 ->]; [lia | lia |].
    destruct (getPixelValue_ok w h pixels (x + 7) y Hg) as [v7 ->]; [lia | lia |].
    cbn [rbind].
    rewrite !Z.shiftr_div_pow2 by lia. change (2 ^ 3) with 8.
    set (q := printWidth / 8). set (k := x / 8).
    assert (Hq : printWidth = 8 * q) by (unfold q; divlia).
    assert (Hk : x = 8 * k) by (unfold k; divlia).
    assert (Hnq : n = q * printHeight) by nia.
    assert (Hrow : 0 <= y * q /\ y * q + q <= n) by nia.
    assert (Hnup : n < 2 ^ 62) by nia.
    assert (Hi : iadd (imul y q) k = y * q + k).
    { unfold iadd, imul. rewrite (wrap_int_small (y * q)) by lia.
      apply wrap_int_small. lia. }
    rewrite Hi, store_ok by lia.
    eexists. split; [reflexivity |]. now rewrite len_insert.
Qed.

(** ** Decoding *)

Lemma fold_left_snoc {X Y} (f : X -> Y) (l : list X) (init : list Y) :
  fold_left (fun acc x => acc ++ [f x]) l init = init ++ map f l.
Proof.
  revert init. induction l as [| x l IH]; intros init; cbn.
  - now rewrite app_nil_r.
  - now rewrite IH, <- app_assoc.
Qed.

Lemma getPixels_grid (decode : string -> image_Image + error) (data : string)
    (img : image_Image) :
  decode data = inl img -> 0 <= Max_X img -> 0 <= Max_Y img ->
  exists pixels,
    getPixels decode data = (Max_X img, Max_Y img, pixels, None) /\
    grid (Max_X img) (Max_Y img) pixels.
Proof.
  intros D Hw Hh. unfold getPixels. rewrite D.
  eexists. split; [reflexivity |].
  rewrite (fold_left_snoc
             (fun y => fold_left (fun row x => row ++ [rgbaToPixel (At img x y)])
                                 (range (Max_X img)) [])).
  cbn [app]. split.
  - unfold len. rewrite length_map. now apply len_range.
  - apply Forall_map, Forall_forall. intros y _.
    rewrite (fold_left_snoc (fun x => rgbaToPixel (At img x y))). cbn [app].
    unfold len. rewrite length_map. now apply len_range.
Qed.

Lemma lift_run {X} (r : result X) (x : X) (m : World) :
  r = Ret x -> lift r m = Ret (x, m).
Proof. now intros ->. Qed.

Lemma byte_land (z : Z) : byte (Z.land z 255) = Z.land z 255.
Proof.
  unfold byte. change 255 with (Z.ones 8). rewrite Z.land_ones by lia.
  change (2 ^ 8) with 256. now rewrite Z.mod_mod.
Qed.

(** ** The raster frame *)

(** C5: for every decoded image, [w] wide and [h] high (a decoder's image
    has at least one row, and dimensions that fit PNG's 31 bits),
    [PrintImage] writes one chunk: the four bytes GS v 0 0, the four
    dimension bytes taken from the original dimensions, [w>>3] low then
    high and [h] low then high, and then a packed bitmap of exactly
    (floor(w/8)*8 * floor(h/8)*8) / 8 bytes. *)
Theorem PrintImage_frame (decode : string -> image_Image + error) (data : string)
    (img : image_Image) (m : World) :
  decode data = inl img ->
  0 <= Max_X img < 2 ^ 31 ->
  1 <= Max_Y img < 2 ^ 31 ->
  exists packed m',
    PrintImage decode data m = Ret (None, m') /\
    written (dst (printer m')) =
      written (dst (printer m)) ++
      [[29; 118; 48; 0] ++
       [Z.land (Z.shiftr (Max_X img) 3) 255;
        Z.land (Z.shiftr (Z.shiftr (Max_X img) 3) 8) 255;
        Z.land (Max_Y img) 255;
        Z.land (Z.shiftr (Max_Y img) 8) 255] ++
       packed] /\
    len packed = (Max_X img / 8 * 8) * (Max_Y img / 8 * 8) / 8.
Proof.
  intros D Hw Hh.
  destruct (getPixels_grid decode data img D) as [p0 [E0 G0]]; [lia | lia |].
  destruct (removeTransparency_grid _ _ p0 G0) as [p1 [E1 G1]]; [lia |].
  destruct (makeGrayscale_grid _ _ p1 G1) as [p2 [E2 G2]]; [lia |].
  destruct (rasterize_len (Max_X img) (Max_Y img)
              (closestNDivisibleBy8 (Max_X img)) (closestNDivisibleBy8 (Max_Y img))
              p2 G2) as [packed [E3 L3]];
    try (rewrite closestNDivisibleBy8_floor by lia; divlia).
  rewrite !closestNDivisibleBy8_floor in L3 by lia.
  unfold PrintImage. rewrite E0.
  rewrite (bind_run _ _ _ _ _ (lift_run _ _ m E1)).
  rewrite (bind_run _ _ _ _ _ (lift_run _ _ m E2)).
  rewrite (bind_run _ _ _ _ _ (lift_run _ _ m E3)).
  cbv zeta. cbn [fst]. rewrite !byte_land.
  match goal with
  | |- context [WriteRaw ?d] => destruct (WriteRaw_sends d m) as [m' [E4 [P4 _]]]
  end.
  rewrite (bind_run _ _ _ _ _ E4).
  exists packed, m'. split; [reflexivity |]. split; [| exact L3].
  rewrite P4. unfold emitted, len. cbn. reflexivity.
Qed.

(** C5 on the 8x8 black PNG. *)
Lemma PrintImage_frame_witness :
  exists packed m',
    PrintImage sample_Decode black8_png (fresh accepting) = Ret (None, m') /\
    written (dst (printer m')) = [[29; 118; 48; 0; 1; 0; 8; 0] ++ packed] /\
    len packed = 8.
Proof.
  apply (PrintImage_frame sample_Decode black8_png black8 (fresh accepting)).
  - reflexivity.
  - cbn. lia.
  - cbn. lia.
Defined.

(** The bound on the height is needed: on an image with no rows the
    pipeline stops at [pixels[0]]. *)
Example PrintImage_no_rows_panics :
  PrintImage empty_Decode black8_png (fresh accepting)
    = Panic "runtime error: index out of range".
Proof. reflexivity. Qed.

(** ** The pipeline on plain images *)

(** C6: flattening, binarizing and packing a 16x16 opaque black image
    gives 32 bytes, all 0xFF; an opaque white one gives 32 bytes, all
    0x00. *)
Theorem pipeline_black_white_16 :
  (p <- removeTransparency black16 ;;
   p <- makeGrayscale p ;;
   rasterize (closestNDivisibleBy8 16) (closestNDivisibleBy8 16) p)%R
    = Ret (replicate 32 255, None) /\
  (p <- removeTransparency white16 ;;
   p <- makeGrayscale p ;;
   rasterize (closestNDivisibleBy8 16) (closestNDivisibleBy8 16) p)%R
    = Ret (replicate 32 0, None).
Proof. split; vm_compute; reflexivity. Qed.

(** The leftmost pixel of a group of eight lands in the top bit. *)
Example left_column_packs_high_bit :
  (p <- removeTransparency left_column8 ;;
   p <- makeGrayscale p ;;
   rasterize 8 8 p)%R
    = Ret (replicate 8 128, None).
Proof. vm_compute. reflexivity. Qed.

(** ** The Image operation *)

Lemma SetAlign_sends (align : string) (m : World) :
  exists a m',
    SetAlign align m = Ret (tt, m') /\ 0 <= a <= 2 /\ sends m [[27; 97; a]] m'.
Proof.
  unfold SetAlign.
  destruct (align =? "left")%string;
    [destruct (sent_op (Sprintf_c (String ESC "a") 0) m) as [m' [E S]];
     exists 0, m'; split; [exact E | split; [lia | exact S]] |].
  destruct (align =? "center")%string;
    [destruct (sent_op (Sprintf_c (String ESC "a") 1) m) as [m' [E S]];
     exists 1, m'; split; [exact E | split; [lia | exact S]] |].
  destruct (align =? "right")%string;
    [destruct (sent_op (Sprintf_c (String ESC "a") 2) m) as [m' [E S]];
     exists 2, m'; split; [exact E | split; [lia | exact S]] |].
  destruct (log_sends LevelWarn "Invalid alignment: %s" [ArgStr align] m)
    as [m1 [E1 [S1 _]]].
  destruct (sent_op (Sprintf_c (String ESC "a") 0) m1) as [m2 [E2 S2]].
  exists 0, m2. split; [| split; [lia | exact (sends_trans _ _ _ _ _ S1 S2)]].
  rewrite (bind_run _ _ m m1 0); [exact E2 |].
  now rewrite (bind_run _ _ _ _ _ E1).
Qed.

(** After the alignment step [Image] checks its parameters, logging each
    fault at level Critical, and whatever it found it goes on to
    [PrintImage]; the checks leave the session alone. *)
Lemma Image_unfolds (decode : string -> image_Image + error)
    (params : gmap string string) (data : string) (m m1 : World) :
  with_key params "Align" (fun align => SetAlign align) m = Ret (tt, m1) ->
  exists m2,
    Image decode params data m = (_ <- PrintImage decode data ;; ret tt) m2 /\
    printer m2 = printer m1 /\
    (params !! "Width" = None ->
     In (mkLog LevelCritical "No width specified on image" []) (beelog m2)) /\
    (params !! "Height" = None ->
     In (mkLog LevelCritical "No height specified on image" []) (beelog m2)) /\
    (snd (Atoi (default EmptyString (params !! "Width"))) <> None ->
     In (mkLog LevelCritical "Invalid image width %s"
           [ArgStr (default EmptyString (params !! "Width"))]) (beelog m2)) /\
    (snd (Atoi (default EmptyString (params !! "Height"))) <> None ->
     In (mkLog LevelCritical "Invalid image height %s"
           [ArgStr (default EmptyString (params !! "Height"))]) (beelog m2)).
Proof.
  intros HA. unfold Image. rewrite (bind_run _ _ _ _ _ HA). cbv beta.
  destruct m1 as [[d w h u em up ro rv vb] lg].
  destruct (params !! "Width") as [ws |]; destruct (params !! "Height") as [hs |];
    cbn [from_option id];
    repeat match goal with
           | |- context [Atoi ?s] =>
               is_var s; destruct (Atoi s) as [? [? |]]
           end;
    destruct vb;
    (eexists; split;
     [unfold bind, ret, get, when, log; cbn -[PrintImage]; reflexivity |]);
    cbn; rewrite ?in_app_iff; cbn;
    repeat split; intros; try congruence; tauto.
Qed.

Lemma sink_of_bind_ret {X} (c : M X) (m : World) :
  sink_of ((_ <- c ;; ret tt) m) = sink_of (c m).
Proof. unfold bind, ret, sink_of. destruct (c m) as [[x m'] | msg]; reflexivity. Qed.

(** What [PrintImage] sends is settled by the payload and the session;
    the log plays no part. *)
Lemma PrintImage_sink (decode : string -> image_Image + error) (data : string)
    (m m' : World) :
  printer m = printer m' ->
  sink_of (PrintImage decode data m) = sink_of (PrintImage decode data m').
Proof.
  destruct m as [e lg], m' as [e' lg']. cbn [printer]. intros <-.
  unfold PrintImage.
  destruct (getPixels decode data) as [[[w h] px] [err |]]; [reflexivity |].
  unfold bind, lift.
  destruct (removeTransparency px) as [p1 | msg]; [| reflexivity].
  destruct (makeGrayscale p1) as [p2 | msg]; [| reflexivity].
  destruct (rasterize (closestNDivisibleBy8 w) (closestNDivisibleBy8 h) p2)
    as [[bytes rerr] | msg]; [| reflexivity].
  cbv zeta. cbn [fst].
  match goal with |- context [WriteRaw ?d] => generalize d end.
  intros d. unfold WriteRaw, bind, get, when, ret, log, dst_Write.
  destruct e as [dw w0 h0 u em up ro rv vb].
  destruct (0 <? len d); destruct vb; reflexivity.
Qed.

(** C1, as the code has it: a missing Width or Height, or a value that
    does not parse as an integer, is reported, each fault by a log entry at
    level Critical, and the operation is not aborted: after the alignment
    step it runs [PrintImage] on the payload, on a session the checks have
    not touched.  What reaches the sink (the alignment command when Align
    is given, then what [PrintImage] writes) is therefore the same for
    every other parameter map with the same Align, whatever Width and
    Height hold. *)
Theorem Image_reports_and_proceeds (decode : string -> image_Image + error)
    (params : gmap string string) (data : string) (m : World) :
  exists m1 m2,
    with_key params "Align" (fun align => SetAlign align) m = Ret (tt, m1) /\
    Image decode params data m = (_ <- PrintImage decode data ;; ret tt) m2 /\
    printer m2 = printer m1 /\
    (params !! "Width" = None ->
     In (mkLog LevelCritical "No width specified on image" []) (beelog m2)) /\
    (params !! "Height" = None ->
     In (mkLog LevelCritical "No height specified on image" []) (beelog m2)) /\
    (snd (Atoi (default EmptyString (params !! "Width"))) <> None ->
     In (mkLog LevelCritical "Invalid image width %s"
           [ArgStr (default EmptyString (params !! "Width"))]) (beelog m2)) /\
    (snd (Atoi (default EmptyString (params !! "Height"))) <> None ->
     In (mkLog LevelCritical "Invalid image height %s"
           [ArgStr (default EmptyString (params !! "Height"))]) (beelog m2)) /\
    (forall params' : gmap string string,
       params' !! "Align" = params !! "Align" ->
       sink_of (Image decode params' data m) = sink_of (Image decode params data m)).
Proof.
  destruct (emits_with_key params "Align" (fun align => SetAlign align)
              emits_SetAlign m) as [m1 [out [E1 _]]].
  destruct (Image_unfolds decode params data m m1 E1)
    as (m2 & E2 & P2 & HW & HH & HWp & HHp).
  exists m1, m2. repeat (split; [assumption |]).
  intros params' HA.
  assert (E1' : with_key params' "Align" (fun align => SetAlign align) m = Ret (tt, m1))
    by (unfold with_key in *; now rewrite HA).
  destruct (Image_unfolds decode params' data m m1 E1') as (m2' & E2' & P2' & _).
  rewrite E2, E2', !sink_of_bind_ret.
  apply PrintImage_sink. now rewrite P2, P2'.
Qed.

(** C1 on the map with Height 8x and no Width, and the 8x8 black PNG. *)
Lemma Image_reports_and_proceeds_witness :
  exists m2,
    Image sample_Decode {[ "Height" := "8x"%string ]} black8_png (fresh accepting)
      = (_ <- PrintImage sample_Decode black8_png ;; ret tt) m2 /\
    printer m2 = printer (fresh accepting) /\
    In (mkLog LevelCritical "No width specified on image" []) (beelog m2) /\
    In (mkLog LevelCritical "Invalid image height %s" [ArgStr "8x"]) (beelog m2).
Proof.
  destruct (Image_reports_and_proceeds sample_Decode {[ "Height" := "8x"%string ]}
              black8_png (fresh accepting))
    as (m1 & m2 & E1 & E2 & P & HW & _ & _ & HH & _).
  exists m2. split; [exact E2 |]. split; [| split].
  - rewrite P. injection E1 as <-. reflexivity.
  - apply HW. reflexivity.
  - apply HH. discriminate.
Defined.

(** C1 fails as stated: with no Width in the map and a payload that
    decodes, the whole raster frame is written. *)
Lemma Image_without_width_prints :
  ({[ "Height" := "8"%string ]} : gmap string string) !! "Width" = None /\
  exists m',
    Image sample_Decode {[ "Height" := "8"%string ]} black8_png (fresh accepting)
      = Ret (tt, m') /\
    written (dst (printer m')) =
      [[29; 118; 48; 0; 1; 0; 8; 0; 255; 255; 255; 255; 255; 255; 255; 255]].
Proof. split; [reflexivity |]. eexists. split; vm_compute; reflexivity. Qed.

(** ** Payloads that do not decode *)

Lemma PrintImage_decode_error (decode : string -> image_Image + error)
    (data : string) (err : error) (m : World) :
  decode data = inr err -> PrintImage decode data m = Ret (Some err, m).
Proof. intros D. unfold PrintImage, getPixels. now rewrite D. Qed.

(** C3, as the code has it: when the payload does not decode,
    [PrintImage] writes nothing and returns the decoder's error to its
    caller; the [Image] operation returns nothing, so the error stops
    there, and what it has written is the alignment command when Align is
    given, and nothing otherwise. *)
Theorem decode_failure_outcome (decode : string -> image_Image + error)
    (data : string) (err : error) (m : World) :
  decode data = inr err ->
  PrintImage decode data m = Ret (Some err, m) /\
  forall params : gmap string string,
    exists m',
      Image decode params data m = Ret (tt, m') /\
      match params !! "Align" with
      | None => printer m' = printer m
      | Some _ => exists a, printer m' = sunk [[27; 97; a]] (printer m)
      end.
Proof.
  intros D. split; [now apply PrintImage_decode_error |].
  intros params.
  assert (HA : exists m1,
    with_key params "Align" (fun align => SetAlign align) m = Ret (tt, m1) /\
    match params !! "Align" with
    | None => printer m1 = printer m
    | Some _ => exists a, printer m1 = sunk [[27; 97; a]] (printer m)
    end).
  { unfold with_key. destruct (params !! "Align") as [align |].
    - destruct (SetAlign_sends align m) as (a & m1 & E & _ & P & _). eauto.
    - now exists m. }
  destruct HA as (m1 & E1 & P1).
  destruct (Image_unfolds decode params data m m1 E1) as (m2 & E2 & P2 & _).
  exists m2. split.
  - rewrite E2.
    now rewrite (bind_run _ _ _ _ _ (PrintImage_decode_error decode data err m2 D)).
  - rewrite P2. exact P1.
Qed.

(** C3 on a payload that is not base64. *)
Lemma decode_failure_outcome_witness :
  PrintImage sample_Decode "not base64!" (fresh accepting)
    = Ret (Some (Err "image: unknown format"), fresh accepting) /\
  forall params : gmap string string,
    exists m',
      Image sample_Decode params "not base64!" (fresh accepting) = Ret (tt, m') /\
      match params !! "Align" with
      | None => printer m' = printer (fresh accepting)
      | Some _ => exists a, printer m' = sunk [[27; 97; a]] (printer (fresh accepting))
      end.
Proof.
  apply (decode_failure_outcome sample_Decode "not base64!"
           (Err "image: unknown format") (fresh accepting)).
  reflexivity.
Defined.

(** C3 fails as stated: the payload does not decode, yet the [Image]
    operation has written the three bytes of the alignment command, and it
    hands no error back. *)
Lemma Image_bad_payload_still_aligns :
  sample_Decode "not base64!" = inr (Err "image: unknown format") /\
  exists m',
    Image sample_Decode
      {[ "Align" := "center"%string; "Width" := "8"%string; "Height" := "8"%string ]}
      "not base64!" (fresh accepting) = Ret (tt, m') /\
    written (dst (printer m')) = [[27; 97; 1]].
Proof. split; [reflexivity |]. eexists. split; vm_compute; reflexivity. Qed.

(** * More of the package *)

(** ** Bytes and strings *)

Lemma ascii_byte_roundtrip (b : Z) : byte_of_ascii (ascii_of_byte b) = b mod 256.
Proof.
  unfold byte_of_ascii, ascii_of_byte.
  assert (H : 0 <= b mod 256 < 256) by divlia.
  rewrite N_ascii_embedding by lia. lia.
Qed.

Lemma bytes_string_roundtrip (l : list Z) :
  bytes_of_string (string_of_bytes l) = map (fun b => b mod 256) l.
Proof.
  induction l as [| b l IH]; cbn; [reflexivity |].
  now rewrite ascii_byte_roundtrip, IH.
Qed.

Lemma emitted_cons (b : Z) (l : list Z) : emitted (b :: l) = [b :: l].
Proof.
  unfold emitted, len. cbn [length].
  now replace (0 <? Z.of_nat (S (length l))) with true
    by (symmetry; apply Z.ltb_lt; lia).
Qed.

(** A command built from bytes sends those bytes, each taken modulo 256. *)
Lemma sent_bytes (b : Z) (l : list Z) (m : World) :
  exists m',
    (_ <- Write (string_of_bytes (b :: l)) ;; ret tt) m = Ret (tt, m') /\
    sends m [map (fun b => b mod 256) (b :: l)] m'.
Proof.
  destruct (sent_op (string_of_bytes (b :: l)) m) as [m' [E S]].
  exists m'. split; [exact E |].
  rewrite bytes_string_roundtrip in S. cbn [map] in *. now rewrite emitted_cons in S.
Qed.

(** ** Style toggles *)

Lemma set_and_send (setf : Escpos -> Escpos) (a b : Z) (field : Escpos -> Z)
    (m : World) :
  exists m',
    (modify setf ;; e <- get ;; _ <- Write (string_of_bytes [a; b; field e]) ;; ret tt) m
      = Ret (tt, m') /\
    printer m' =
      sunk [[a mod 256; b mod 256; field (setf (printer m)) mod 256]] (setf (printer m)).
Proof.
  destruct (sent_bytes a [b; field (setf (printer m))]
              (mkWorld (setf (printer m)) (beelog m))) as [m' [E [P _]]].
  exists m'. split; [exact E | exact P].
Qed.

(** X1: each of the five toggle setters stores the value it is given in
    its own field, leaves the other fields alone, and sends the three
    bytes of its command, the last one being that value. *)
Theorem toggles_store_and_send (v : Z) (m : World) :
  0 <= v < 256 ->
  (exists m', SetUnderline v m = Ret (tt, m') /\
     printer m' = sunk [[27; 45; v]] (set_underline v (printer m))) /\
  (exists m', SetEmphasize v m = Ret (tt, m') /\
     printer m' = sunk [[27; 69; v]] (set_emphasize v (printer m))) /\
  (exists m', SetUpsidedown v m = Ret (tt, m') /\
     printer m' = sunk [[27; 123; v]] (set_upsidedown v (printer m))) /\
  (exists m', SetRotate v m = Ret (tt, m') /\
     printer m' = sunk [[27; 86; v]] (set_rotate v (printer m))) /\
  (exists m', SetReverse v m = Ret (tt, m') /\
     printer m' = sunk [[29; 66; v]] (set_reverse v (printer m))).
Proof.
  intros Hv. assert (Hm : v mod 256 = v) by (apply Z.mod_small; lia).
  repeat split.
  - destruct (set_and_send (set_underline v) 27 45 underline m) as [m' [E P]].
    exists m'. split; [exact E |]. rewrite P. cbn. now rewrite Hm.
  - destruct (set_and_send (set_emphasize v) 27 69 emphasize m) as [m' [E P]].
    exists m'. split; [exact E |]. rewrite P. cbn. now rewrite Hm.
  - destruct (set_and_send (set_upsidedown v) 27 123 upsidedown m) as [m' [E P]].
    exists m'. split; [exact E |]. rewrite P. cbn. now rewrite Hm.
  - destruct (set_and_send (set_rotate v) 27 86 rotate m) as [m' [E P]].
    exists m'. split; [exact E |]. rewrite P. cbn. now rewrite Hm.
  - destruct (set_and_send (set_reverse v) 29 66 reverse m) as [m' [E P]].
    exists m'. split; [exact E |]. rewrite P. cbn. now rewrite Hm.
Qed.

(** X1 at the value 1. *)
Lemma toggles_store_and_send_witness :
  exists m', SetEmphasize 1 (fresh accepting) = Ret (tt, m') /\
    printer m' = sunk [[27; 69; 1]] (set_emphasize 1 (printer (fresh accepting))).
Proof.
  destruct (toggles_store_and_send 1 (fresh accepting)) as (_ & H & _); [lia |].
  exact H.
Defined.

(** ** Absolute position *)

Lemma move_bytes (x : Z) (m : World) :
  0 <= x < 65536 ->
  (exists m', sendMoveX x m = Ret (tt, m') /\
     printer m' = sunk [[27; 36; x mod 256; x / 256]] (printer m)) /\
  (exists m', sendMoveY x m = Ret (tt, m') /\
     printer m' = sunk [[29; 36; x mod 256; x / 256]] (printer m)).
Proof.
  intros Hx.
  assert (Hlo : byte (uint16 (Z.rem x 256)) mod 256 = x mod 256).
  { unfold byte, uint16. rewrite Z.rem_mod_nonneg by lia. divlia. }
  assert (Hhi : byte (uint16 (Z.quot x 256)) mod 256 = x / 256).
  { unfold byte, uint16. rewrite Z.quot_div_nonneg by lia. divlia. }
  split.
  - destruct (sent_bytes 27 [36; byte (uint16 (Z.rem x 256));
                             byte (uint16 (Z.quot x 256))] m) as [m' [E [P _]]].
    exists m'. split; [exact E |]. rewrite P. cbn [map]. now rewrite Hlo, Hhi.
  - destruct (sent_bytes 29 [36; byte (uint16 (Z.rem x 256));
                             byte (uint16 (Z.quot x 256))] m) as [m' [E [P _]]].
    exists m'. split; [exact E |]. rewrite P. cbn [map]. now rewrite Hlo, Hhi.
Qed.

(** X2: for a position that fits 16 bits, [sendMoveX] and [sendMoveY]
    send four bytes, ESC $ or GS $ and then the position split low byte
    first: the two bytes put together give the position back. *)
Theorem move_little_endian (x : Z) (m : World) :
  0 <= x < 65536 ->
  exists lo hi,
    0 <= lo < 256 /\ 0 <= hi < 256 /\ lo + 256 * hi = x /\
    (exists m', sendMoveX x m = Ret (tt, m') /\
       printer m' = sunk [[27; 36; lo; hi]] (printer m)) /\
    (exists m', sendMoveY x m = Ret (tt, m') /\
       printer m' = sunk [[29; 36; lo; hi]] (printer m)).
Proof.
  intros Hx. exists (x mod 256), (x / 256).
  split; [divlia |]. split; [divlia |]. split; [divlia |].
  now apply move_bytes.
Qed.

(** X2 at the position 300 = 44 + 256 * 1. *)
Lemma move_little_endian_witness :
  exists lo hi,
    0 <= lo < 256 /\ 0 <= hi < 256 /\ lo + 256 * hi = 300 /\
    (exists m', sendMoveX 300 (fresh accepting) = Ret (tt, m') /\
       printer m' = sunk [[27; 36; lo; hi]] (printer (fresh accepting))) /\
    (exists m', sendMoveY 300 (fresh accepting) = Ret (tt, m') /\
       printer m' = sunk [[29; 36; lo; hi]] (printer (fresh accepting))).
Proof. apply (move_little_endian 300 (fresh accepting)). lia. Defined.

(** ** Graphics header *)

(** X3: [gSend] makes three writes: ESC ( L, then four bytes, the length
    of the data plus two split low byte first followed by [m] and [fn],
    then the data (no write when it is empty).  The two length bytes hold
    the length modulo 65536. *)
Theorem gSend_frames (mode fn : Z) (data : list Z) (m : World) :
  len data + 2 < 2 ^ 63 ->
  exists lo hi m',
    gSend mode fn data m = Ret (tt, m') /\
    printer m' =
      sunk ([[27; 40; 76]; [lo; hi; mode; fn]] ++ emitted data) (printer m) /\
    0 <= lo < 256 /\ 0 <= hi < 256 /\
    lo + 256 * hi = (len data + 2) mod 65536.
Proof.
  intros Hl. pose proof (len_nonneg data) as H0.
  assert (El : iadd (len data) 2 = len data + 2) by (apply wrap_int_small; lia).
  exists ((len data + 2) mod 256), ((len data + 2) / 256 mod 256).
  unfold gSend. cbv zeta. rewrite El.
  destruct (Write_sends (String ESC "(L") m) as [m1 [E1 [P1 _]]].
  rewrite (bind_run _ _ _ _ _ E1). cbv beta.
  unfold byte. rewrite Z.rem_mod_nonneg, Z.quot_div_nonneg by lia.
  rewrite (Z.mod_mod (len data + 2) 256) by lia.
  destruct (WriteRaw_sends [(len data + 2) mod 256; (len data + 2) / 256 mod 256; mode; fn] m1)
    as [m2 [E2 [P2 _]]].
  rewrite (bind_run _ _ _ _ _ E2). cbv beta.
  destruct (WriteRaw_sends data m2) as [m3 [E3 [P3 _]]].
  rewrite (bind_run _ _ _ _ _ E3). cbv beta.
  exists m3. split; [reflexivity |]. split.
  - rewrite P3, P2, P1, !sunk_sunk. rewrite emitted_cons. reflexivity.
  - repeat split; divlia.
Qed.

(** X3 on two bytes of data. *)
Lemma gSend_frames_witness :
  exists lo hi m',
    gSend 48 2 [1; 2] (fresh accepting) = Ret (tt, m') /\
    printer m' =
      sunk ([[27; 40; 76]; [lo; hi; 48; 2]] ++ emitted [1; 2]) (printer (fresh accepting)) /\
    0 <= lo < 256 /\ 0 <= hi < 256 /\
    lo + 256 * hi = 4.
Proof. apply (gSend_frames 48 2 [1; 2] (fresh accepting)). reflexivity. Defined.

(** ** Line spacing and font *)

(** X4: without an argument [SetLineSpace] sends ESC 2; with arguments it
    sends ESC 3 and the first of them, and when there are more than one it
    logs a warning and ignores the rest. *)
Theorem SetLineSpace_first_only (m : World) :
  (exists m', SetLineSpace [] m = Ret (tt, m') /\
     printer m' = sunk [[27; 50]] (printer m)) /\
  (forall n0 rest,
     exists m', SetLineSpace (n0 :: rest) m = Ret (tt, m') /\
       printer m' = sunk [[27; 51; n0 mod 256]] (printer m) /\
       (rest <> [] ->
        In (mkLog LevelWarn "Invalid num of params, using first param" []) (beelog m'))).
Proof.
  split.
  - destruct (sent_bytes 27 [50] m) as [m' [E [P _]]]. exists m'. split; [exact E | exact P].
  - intros n0 [| n1 rest].
    + destruct (sent_bytes 27 [51; n0] m) as [m' [E [P _]]].
      exists m'. split; [exact E |]. split; [exact P | congruence].
    + destruct (log_sends LevelWarn "Invalid num of params, using first param" [] m)
        as [m1 [E1 [[P1 _] L1]]].
      destruct (sent_bytes 27 [51; n0] m1) as [m' [E [P [lg L]]]].
      exists m'. split; [| split].
      * unfold SetLineSpace.
        rewrite (bind_run _ _ m m1 (string_of_bytes [27; 51; n0])); [exact E |].
        now rewrite (bind_run _ _ _ _ _ E1).
      * rewrite P, P1, sunk_sunk. reflexivity.
      * intros _. rewrite L, L1, !in_app_iff. left. right. now left.
Qed.

(** X4 on the arguments 30 and 60. *)
Lemma SetLineSpace_first_only_witness :
  exists m', SetLineSpace [30; 60] (fresh accepting) = Ret (tt, m') /\
    printer m' = sunk [[27; 51; 30]] (printer (fresh accepting)) /\
    In (mkLog LevelWarn "Invalid num of params, using first param" []) (beelog m').
Proof.
  destruct (SetLineSpace_first_only (fresh accepting)) as [_ H].
  destruct (H 30 [60]) as (m' & E & P & L).
  exists m'. split; [exact E |]. split; [exact P |]. apply L. discriminate.
Defined.

Lemma SetFont_runs (font : string) (m : World) :
  exists m',
    SetFont font m = Ret (tt, m') /\
    printer m' =
      sunk [[27; 77; if (font =? "B")%string then 1
                     else if (font =? "C")%string then 2 else 0]] (printer m) /\
    (font <> "A"%string -> font <> "B"%string -> font <> "C"%string ->
     In (mkLog LevelWarn "Invalid font: '%s', defaulting to 'A'" [ArgStr font])
        (beelog m')).
Proof.
  unfold SetFont.
  destruct (String.eqb_spec font "A") as [-> | HA].
  { destruct (sent_op (Sprintf_c (String ESC "M") 0) m) as [m' [E [P _]]].
    exists m'. split; [exact E |]. split; [exact P | congruence]. }
  destruct (String.eqb_spec font "B") as [-> | HB].
  { destruct (sent_op (Sprintf_c (String ESC "M") 1) m) as [m' [E [P _]]].
    exists m'. split; [exact E |]. split; [exact P | congruence]. }
  destruct (String.eqb_spec font "C") as [-> | HC].
  { destruct (sent_op (Sprintf_c (String ESC "M") 2) m) as [m' [E [P _]]].
    exists m'. split; [exact E |]. split; [exact P | congruence]. }
  destruct (log_sends LevelWarn "Invalid font: '%s', defaulting to 'A'" [ArgStr font] m)
    as [m1 [E1 [[P1 _] L1]]].
  destruct (sent_op (Sprintf_c (String ESC "M") 0) m1) as [m' [E [P [lg L]]]].
  exists m'. split; [| split].
  - rewrite (bind_run _ _ m m1 0); [exact E |].
    now rewrite (bind_run _ _ _ _ _ E1).
  - rewrite P, P1, sunk_sunk. reflexivity.
  - intros _ _ _. rewrite L, L1, !in_app_iff. left. right. now left.
Qed.

(** X5: [SetFont] sends ESC M n with n = 0, 1, 2 for the names A, B, C;
    every other name, a lower-case one too, is logged as invalid and sent
    as n = 0. *)
Theorem SetFont_selects (font : string) (m : World) :
  exists m',
    SetFont font m = Ret (tt, m') /\
    printer m' =
      sunk [[27; 77; if (font =? "B")%string then 1
                     else if (font =? "C")%string then 2 else 0]] (printer m) /\
    (font <> "A"%string -> font <> "B"%string -> font <> "C"%string ->
     In (mkLog LevelWarn "Invalid font: '%s', defaulting to 'A'" [ArgStr font])
        (beelog m')).
Proof. apply SetFont_runs. Qed.

(** X5 at the lower-case name b. *)
Lemma SetFont_selects_witness :
  exists m',
    SetFont "b" (fresh accepting) = Ret (tt, m') /\
    printer m' = sunk [[27; 77; 0]] (printer (fresh accepting)) /\
    In (mkLog LevelWarn "Invalid font: '%s', defaulting to 'A'" [ArgStr "b"]) (beelog m').
Proof.
  destruct (SetFont_selects "b" (fresh accepting)) as (m' & E & P & L).
  exists m'. split; [exact E |]. split; [exact P |]. apply L; discriminate.
Defined.

(** ** Feed and cut, byte by byte *)

Lemma defaults_sunk (out : list (list Z)) (e : Escpos) :
  defaults (sunk out e) = sunk out (defaults e).
Proof. reflexivity. Qed.

(** The line feed, the reset and the six style commands. *)
Lemma Feed_tail (m : World) :
  exists m',
    (Linefeed ;; reset ;; sendEmphasize ;; sendRotate ;; sendReverse ;;
     sendUnderline ;; sendUpsidedown ;; sendFontSize) m = Ret (tt, m') /\
    printer m' =
      sunk [[10]; [27; 69; 0]; [27; 86; 0]; [29; 66; 0]; [27; 45; 0]; [27; 123; 0];
            [29; 33; 0]] (defaults (printer m)).
Proof.
  destruct (sent_op (String "010" EmptyString) m) as [m3 [E3 [P3 _]]].
  rewrite (bind_run _ _ _ _ _ E3); clear E3; cbv beta.
  rewrite (bind_run _ _ _ _ _ (reset_run m3)); cbv beta.
  set (m4 := mkWorld (defaults (printer m3)) (beelog m3)).
  destruct (styled_sends (fun e => string_of_bytes [27; 69; emphasize e]) m4)
    as [m5 [E5 [P5 _]]].
  rewrite (bind_run _ _ _ _ _ E5); clear E5; cbv beta.
  destruct (styled_sends (fun e => string_of_bytes [27; 86; rotate e]) m5)
    as [m6 [E6 [P6 _]]].
  rewrite (bind_run _ _ _ _ _ E6); clear E6; cbv beta.
  destruct (styled_sends (fun e => string_of_bytes [29; 66; reverse e]) m6)
    as [m7 [E7 [P7 _]]].
  rewrite (bind_run _ _ _ _ _ E7); clear E7; cbv beta.
  destruct (styled_sends (fun e => string_of_bytes [27; 45; underline e]) m7)
    as [m8 [E8 [P8 _]]].
  rewrite (bind_run _ _ _ _ _ E8); clear E8; cbv beta.
  destruct (styled_sends (fun e => string_of_bytes [27; 123; upsidedown e]) m8)
    as [m9 [E9 [P9 _]]].
  rewrite (bind_run _ _ _ _ _ E9); clear E9; cbv beta.
  destruct (sendFontSize_sends m9) as [m10 [E10 [P10 _]]].
  exists m10. split; [exact E10 |].
  subst m4. cbn in P5. rewrite P5 in P6. cbn in P6. rewrite P6 in P7. cbn in P7.
  rewrite P7 in P8. cbn in P8. rewrite P8 in P9. cbn in P9.
  rewrite P9 in P10. cbn in P10.
  rewrite P10, P3, defaults_sunk, !sunk_sunk. reflexivity.
Qed.

Lemma Feed_runs (params : gmap string string) (m : World) :
  exists m',
    Feed params m = Ret (tt, m') /\
    printer m' =
      sunk (match params !! "Line" with
            | Some l => match Atoi l with
                        | (i, None) => [[27; 74; i mod 256]]
                        | (_, Some _) => []
                        end
            | None => []
            end ++
            match params !! "Unit" with
            | Some u => match Atoi u with
                        | (i, None) =>
                            [[29; 36; i mod 65536 mod 256; i mod 65536 / 256]]
                        | (_, Some _) => []
                        end
            | None => []
            end ++
            [[10]; [27; 69; 0]; [27; 86; 0]; [29; 66; 0]; [27; 45; 0]; [27; 123; 0];
             [29; 33; 0]])
           (defaults (printer m)).
Proof.
  unfold Feed.
  assert (HL : exists m1,
    with_key params "Line" (fun l =>
      match Atoi l with
      | (i, None) => FormfeedN (uint8 i)
      | (_, Some _) => log LevelCritical "Invalid line number %s" [ArgStr l]
      end) m = Ret (tt, m1) /\
    printer m1 = sunk (match params !! "Line" with
                       | Some l => match Atoi l with
                                   | (i, None) => [[27; 74; i mod 256]]
                                   | (_, Some _) => []
                                   end
                       | None => []
                       end) (printer m)).
  { unfold with_key. destruct (params !! "Line") as [l |].
    - destruct (Atoi l) as [i [err |]].
      + destruct (log_sends LevelCritical "Invalid line number %s" [ArgStr l] m)
          as [m1 [E1 [[P1 _] _]]]. eauto.
      + unfold FormfeedN, uint8.
        replace (i mod 256 <? 0) with false by (symmetry; apply Z.ltb_ge; divlia).
        replace (255 <? i mod 256) with false by (symmetry; apply Z.ltb_ge; divlia).
        destruct (sent_bytes 27 [74; i mod 256] m) as [m1 [E1 [P1 _]]].
        exists m1. split; [exact E1 |]. rewrite P1. cbn [map].
        now rewrite Z.mod_mod by lia.
    - exists m. split; [reflexivity | now rewrite sunk_nil]. }
  destruct HL as [m1 [E1 P1]].
  rewrite (bind_run _ _ _ _ _ E1); clear E1; cbv beta.
  assert (HU : exists m2,
    with_key params "Unit" (fun u =>
      match Atoi u with
      | (i, None) => sendMoveY (uint16 i)
      | (_, Some _) => log LevelCritical "Invalid unit number %s" [ArgStr u]
      end) m1 = Ret (tt, m2) /\
    printer m2 = sunk (match params !! "Unit" with
                       | Some u => match Atoi u with
                                   | (i, None) =>
                                       [[29; 36; i mod 65536 mod 256; i mod 65536 / 256]]
                                   | (_, Some _) => []
                                   end
                       | None => []
                       end) (printer m1)).
  { unfold with_key. destruct (params !! "Unit") as [u |].
    - destruct (Atoi u) as [i [err |]].
      + destruct (log_sends LevelCritical "Invalid unit number %s" [ArgStr u] m1)
          as [m2 [E2 [[P2 _] _]]]. eauto.
      + destruct (move_bytes (uint16 i) m1) as (_ & m2 & E2 & P2);
          [unfold uint16; divlia |].
        exists m2. split; [exact E2 | exact P2].
    - exists m1. split; [reflexivity | now rewrite sunk_nil]. }
  destruct HU as [m2 [E2 P2]].
  rewrite (bind_run _ _ _ _ _ E2); clear E2; cbv beta.
  destruct (Feed_tail m2) as [m' [E P]].
  exists m'. split; [exact E |].
  rewrite P, P2, P1, !defaults_sunk, !sunk_sunk. reflexivity.
Qed.

(** X6: what [Feed] sends, in full.  A Line value that parses gives
    ESC J n with n the value modulo 256 (the command of [FormfeedD], not
    ESC d); a Unit value that parses gives GS $ with the value modulo 65536
    split low byte first; a value that does not parse gives no bytes.  The
    line feed and the six style commands follow, and the style fields are
    the defaults. *)
Theorem Feed_bytes (params : gmap string string) (m : World) :
  exists m',
    Feed params m = Ret (tt, m') /\
    printer m' =
      sunk (match params !! "Line" with
            | Some l => match Atoi l with
                        | (i, None) => [[27; 74; i mod 256]]
                        | (_, Some _) => []
                        end
            | None => []
            end ++
            match params !! "Unit" with
            | Some u => match Atoi u with
                        | (i, None) =>
                            [[29; 36; i mod 65536 mod 256; i mod 65536 / 256]]
                        | (_, Some _) => []
                        end
            | None => []
            end ++
            [[10]; [27; 69; 0]; [27; 86; 0]; [29; 66; 0]; [27; 45; 0]; [27; 123; 0];
             [29; 33; 0]])
           (defaults (printer m)).
Proof. apply Feed_runs. Qed.

Lemma FeedAndCut_runs (params : gmap string string) (m : World) :
  exists m',
    FeedAndCut params m = Ret (tt, m') /\
    printer m' =
      sunk (match params !! "Type" with
            | Some t => if (t =? "feed")%string then [[27; 74; 1]] else []
            | None => []
            end ++ [[29; 86; 65; 48]]) (printer m).
Proof.
  unfold FeedAndCut.
  assert (HF : exists m1,
    match params !! "Type" with
    | Some t => when (t =? "feed")%string Formfeed
    | None => ret tt
    end m = Ret (tt, m1) /\
    printer m1 = sunk (match params !! "Type" with
                       | Some t => if (t =? "feed")%string then [[27; 74; 1]] else []
                       | None => []
                       end) (printer m)).
  { destruct (params !! "Type") as [t |].
    - destruct (t =? "feed")%string.
      + destruct (sent_bytes 27 [74; 1] m) as [m1 [E1 [P1 _]]].
        exists m1. split; [exact E1 | exact P1].
      + exists m. split; [reflexivity | now rewrite sunk_nil].
    - exists m. split; [reflexivity | now rewrite sunk_nil]. }
  destruct HF as [m1 [E1 P1]].
  rewrite (bind_run _ _ _ _ _ E1); clear E1; cbv beta.
  destruct (sent_op (String GS "VA0") m1) as [m' [E [P _]]].
  exists m'. split; [exact E |]. rewrite P, P1, sunk_sunk. reflexivity.
Qed.

(** X7: [FeedAndCut] feeds one line (ESC J 1) only when Type is exactly
    feed, then always sends the cut GS V A 0; the style fields are not
    touched. *)
Theorem FeedAndCut_bytes (params : gmap string string) (m : World) :
  exists m',
    FeedAndCut params m = Ret (tt, m') /\
    printer m' =
      sunk (match params !! "Type" with
            | Some t => if (t =? "feed")%string then [[27; 74; 1]] else []
            | None => []
            end ++ [[29; 86; 65; 48]]) (printer m).
Proof. apply FeedAndCut_runs. Qed.

(** ** Properties the operations keep *)

Lemma preserves_ret {X} (I : Escpos -> Prop) (x : X) : preserves I (ret x).
Proof. intros m x' m' H E. inversion E; subst. exact H. Qed.

Lemma preserves_bind {X Y} (I : Escpos -> Prop) (c : M X) (k : X -> M Y) :
  preserves I c -> (forall x, preserves I (k x)) -> preserves I (bind c k).
Proof.
  intros Hc Hk m y m' H E. unfold bind in E.
  destruct (c m) as [[x m1] | msg] eqn:E1; [| discriminate].
  exact (Hk x m1 y m' (Hc m x m1 H E1) E).
Qed.

Lemma preserves_get (I : Escpos -> Prop) : preserves I get.
Proof. intros m x m' H E. inversion E; subst. exact H. Qed.

Lemma preserves_log (I : Escpos -> Prop) (l : Level) (fmt : string) (a : list LogArg) :
  preserves I (log l fmt a).
Proof. intros m x m' H E. inversion E; subst. exact H. Qed.

Lemma preserves_lift {X} (I : Escpos -> Prop) (r : result X) : preserves I (lift r).
Proof.
  intros m x m' H E. unfold lift in E. destruct r; [| discriminate].
  inversion E; subst. exact H.
Qed.

Lemma preserves_modify (I : Escpos -> Prop) (f : Escpos -> Escpos) :
  (forall e, I e -> I (f e)) -> preserves I (modify f).
Proof. intros Hf m x m' H E. inversion E; subst. cbn. now apply Hf. Qed.

Lemma preserves_when (I : Escpos -> Prop) (b : bool) (c : M unit) :
  preserves I c -> preserves I (when b c).
Proof. destruct b; [easy | intros _; apply preserves_ret]. Qed.

Lemma preserves_with_key (I : Escpos -> Prop) (params : gmap string string)
    (k : string) (f : string -> M unit) :
  (forall v, preserves I (f v)) -> preserves I (with_key params k f).
Proof.
  intros H. unfold with_key. destruct (params !! k); [apply H | apply preserves_ret].
Qed.

Lemma sunk_blind (I : Escpos -> Prop) (out : list (list Z)) (e : Escpos) :
  sink_blind I -> I e -> I (sunk out e).
Proof. intros HI He. unfold sunk. now apply HI. Qed.

Lemma preserves_WriteRaw (I : Escpos -> Prop) (data : list Z) :
  sink_blind I -> preserves I (WriteRaw data).
Proof.
  intros HI m x m' H E.
  destruct (WriteRaw_sends data m) as [m1 [E1 [P1 _]]].
  rewrite E1 in E. inversion E; subst. rewrite P1. now apply sunk_blind.
Qed.

Lemma preserves_op (I : Escpos -> Prop) (s : string) :
  sink_blind I -> preserves I (_ <- Write s ;; ret tt).
Proof.
  intros HI. apply preserves_bind; [now apply preserves_WriteRaw |].
  intros _. apply preserves_ret.
Qed.

Lemma preserves_emits (I : Escpos -> Prop) (c : M unit) :
  sink_blind I -> emits c -> preserves I c.
Proof.
  intros HI Hc m x m' H E. destruct (Hc m) as [m1 [out [E1 [P1 _]]]].
  rewrite E1 in E. inversion E; subst. rewrite P1. now apply sunk_blind.
Qed.

Lemma preserves_styled (I : Escpos -> Prop) (f : Escpos -> Escpos)
    (g : Escpos -> string) :
  sink_blind I -> (forall e, I e -> I (f e)) ->
  preserves I (modify f ;; e <- get ;; _ <- Write (g e) ;; ret tt).
Proof.
  intros HI Hf. apply preserves_bind; [now apply preserves_modify |].
  intros _. apply preserves_bind; [apply preserves_get |].
  intros e. now apply preserves_op.
Qed.

(** [SetFontSize] keeps whatever does not depend on the font scale. *)
Lemma preserves_SetFontSize (I : Escpos -> Prop) (w h : Z) :
  sink_blind I ->
  (forall v e, I e -> I (set_width v e)) ->
  (forall v e, I e -> I (set_height v e)) ->
  preserves I (SetFontSize w h).
Proof.
  intros HI Hw Hh. unfold SetFontSize.
  destruct ((0 <? w) && (0 <? h) && (w <=? 8) && (h <=? 8)); [| apply preserves_log].
  apply preserves_bind.
  - destruct (5 <? h); [| apply preserves_ret].
    apply preserves_bind; [apply preserves_log | intros _; apply preserves_ret].
  - intros h'. apply preserves_bind; [apply preserves_modify, Hw |].
    intros _. apply preserves_bind; [apply preserves_modify, Hh |].
    intros _. apply preserves_bind; [apply preserves_get |].
    intros e. now apply preserves_op.
Qed.

(** [SetFontSize] keeps the state well formed, whatever it is asked. *)
Lemma SetFontSize_wf (w h : Z) : preserves wf_style (SetFontSize w h).
Proof.
  intros m x m' H E. unfold SetFontSize in E.
  destruct ((0 <? w) && (0 <? h) && (w <=? 8) && (h <=? 8)) eqn:G.
  - repeat (apply andb_prop in G; destruct G as [G ?]).
    destruct (sendFontSize_sends
      (mkWorld (set_height (Z.min h 5) (set_width w (printer m)))
               (beelog m ++ if 5 <? h
                            then [mkLog LevelWarn
                              "change height to 5, because height larger than 5 may cause some error" []]
                            else []))) as [m2 [E2 [P2 _]]].
    assert (E' : SetFontSize w h m = Ret (tt, m2)).
    { unfold SetFontSize. rewrite (proj2 (andb_true_iff _ _)) by
        (split; [repeat (apply andb_true_intro; split) |]; assumption).
      rewrite <- E2. unfold bind, log, ret, modify. cbn.
      destruct (Z.ltb_spec 5 h); cbn.
      - now rewrite Z.min_r by lia.
      - rewrite Z.min_l by lia. destruct m as [e lg]. cbn. now rewrite app_nil_r. }
    unfold SetFontSize in E'. rewrite (proj2 (andb_true_iff _ _)) in E' by
        (split; [repeat (apply andb_true_intro; split) |]; assumption).
    rewrite E' in E. inversion E; subst. rewrite P2.
    destruct H as (Hw & Hh & Ht). unfold wf_style. cbn. repeat split; try lia; tauto.
  - inversion E; subst. exact H.
Qed.

(** [Text] keeps every property of the session that the sink, the font
    scale and switching a style on do not disturb. *)
Lemma preserves_Text (I : Escpos -> Prop) (order : list (string * string))
    (params : gmap string string) (data : string) :
  sink_blind I ->
  (forall w h, preserves I (SetFontSize w h)) ->
  (forall e, I e -> I (set_emphasize 1 e)) ->
  (forall e, I e -> I (set_underline 1 e)) ->
  (forall e, I e -> I (set_reverse 1 e)) ->
  (forall e, I e -> I (set_rotate 1 e)) ->
  preserves I (Text order params data).
Proof.
  intros HI HF Hem Hul Hrv Hro. unfold Text.
  apply preserves_bind;
    [apply preserves_with_key; intros v; apply preserves_emits;
     [exact HI | apply emits_SetAlign] |]; intros _.
  apply preserves_bind;
    [apply preserves_with_key; intros v; apply preserves_when;
     apply preserves_styled with (g := fun e => string_of_bytes [27; 69; emphasize e]);
     assumption |]; intros _.
  apply preserves_bind;
    [apply preserves_with_key; intros v; apply preserves_when;
     apply preserves_styled with (g := fun e => string_of_bytes [27; 45; underline e]);
     assumption |]; intros _.
  apply preserves_bind;
    [apply preserves_with_key; intros v; apply preserves_when;
     apply preserves_styled with (g := fun e => string_of_bytes [29; 66; reverse e]);
     assumption |]; intros _.
  apply preserves_bind;
    [apply preserves_with_key; intros v; apply preserves_when;
     apply preserves_styled with (g := fun e => string_of_bytes [27; 86; rotate e]);
     assumption |]; intros _.
  apply preserves_bind;
    [apply preserves_with_key; intros v; apply preserves_bind;
     [apply preserves_lift |
      intros f; apply preserves_emits; [exact HI | apply emits_SetFont]] |]; intros _.
  apply preserves_bind;
    [apply preserves_with_key; intros v; apply preserves_when;
     apply preserves_bind; [apply preserves_get | intros e; apply HF] |]; intros _.
  apply preserves_bind;
    [apply preserves_with_key; intros v; apply preserves_when;
     apply preserves_bind; [apply preserves_get | intros e; apply HF] |]; intros _.
  apply preserves_bind;
    [apply preserves_with_key; intros v; destruct (Atoi v) as [i [err |]];
     [apply preserves_log |
      apply preserves_bind; [apply preserves_get | intros e; apply HF]] |]; intros _.
  apply preserves_bind;
    [apply preserves_with_key; intros v; destruct (Atoi v) as [i [err |]];
     [apply preserves_log |
      apply preserves_bind; [apply preserves_get | intros e; apply HF]] |]; intros _.
  apply preserves_bind;
    [apply preserves_with_key; intros v; destruct (Atoi v) as [i [err |]];
     [apply preserves_log | apply preserves_emits; [exact HI | apply emits_sendMoveX]] |];
    intros _.
  apply preserves_bind;
    [apply preserves_with_key; intros v; destruct (Atoi v) as [i [err |]];
     [apply preserves_log | apply preserves_emits; [exact HI | apply emits_sendMoveY]] |];
    intros _.
  cbv zeta. destruct (0 <? slen (textReplace order data));
    [now apply preserves_op | apply preserves_ret].
Qed.

(** X8: [Text] has no way to switch a style off.  Whatever the
    parameters, a toggle that is 1 before a [Text] that returns is 1 after
    it; only [Feed] and [Init] bring the toggles back to 0. *)
Theorem Text_keeps_styles_on (order : list (string * string))
    (params : gmap string string) (data : string) (m m' : World) :
  Text order params data m = Ret (tt, m') ->
  (underline (printer m) = 1 -> underline (printer m') = 1) /\
  (emphasize (printer m) = 1 -> emphasize (printer m') = 1) /\
  (upsidedown (printer m) = 1 -> upsidedown (printer m') = 1) /\
  (rotate (printer m) = 1 -> rotate (printer m') = 1) /\
  (reverse (printer m) = 1 -> reverse (printer m') = 1).
Proof.
  intros E.
  assert (HT : forall t : Escpos -> Z,
    (forall e w, t (set_dst w e) = t e) ->
    (forall e v, t (set_width v e) = t e) ->
    (forall e v, t (set_height v e) = t e) ->
    (forall e, t e = 1 -> t (set_emphasize 1 e) = 1) ->
    (forall e, t e = 1 -> t (set_underline 1 e) = 1) ->
    (forall e, t e = 1 -> t (set_reverse 1 e) = 1) ->
    (forall e, t e = 1 -> t (set_rotate 1 e) = 1) ->
    t (printer m) = 1 -> t (printer m') = 1).
  { intros t Hd Hw Hh H1 H2 H3 H4 H.
    refine (preserves_Text (fun e => t e = 1) order params data _ _ H1 H2 H3 H4
              m tt m' H E).
    - intros e w He. now rewrite Hd.
    - intros w h. apply preserves_SetFontSize.
      + intros e w' He. now rewrite Hd.
      + intros v e He. now rewrite Hw.
      + intros v e He. now rewrite Hh. }
  repeat split; apply HT; intros; try reflexivity; assumption.
Qed.

(** X8 on a session with emphasize on and a text with no parameter. *)
Lemma Text_keeps_styles_on_witness :
  exists m',
    Text textReplaceMap ∅ "hi"
      (mkWorld (set_emphasize 1 (printer (fresh accepting))) []) = Ret (tt, m') /\
    emphasize (printer m') = 1.
Proof.
  assert (H : exists m',
    Text textReplaceMap ∅ "hi"
      (mkWorld (set_emphasize 1 (printer (fresh accepting))) []) = Ret (tt, m'))
    by (eexists; vm_compute; reflexivity).
  destruct H as [m' E]. exists m'. split; [exact E |].
  apply (Text_keeps_styles_on textReplaceMap ∅ "hi" _ m' E). reflexivity.
Defined.

(** ** The state stays well formed *)

Lemma wf_sink_blind : sink_blind wf_style.
Proof. intros e w H. exact H. Qed.

Lemma wf_defaults (e : Escpos) : wf_style (defaults e).
Proof. unfold wf_style. cbn. repeat split; lia || tauto. Qed.

Lemma preserves_PrintImage (I : Escpos -> Prop)
    (decode : string -> image_Image + error) (data : string) :
  sink_blind I -> preserves I (PrintImage decode data).
Proof.
  intros HI. unfold PrintImage.
  destruct (getPixels decode data) as [[[w h] px] [err |]]; [apply preserves_ret |].
  apply preserves_bind; [apply preserves_lift |]. intros p1.
  apply preserves_bind; [apply preserves_lift |]. intros p2.
  apply preserves_bind; [apply preserves_lift |]. intros r.
  cbv zeta. apply preserves_bind; [now apply preserves_WriteRaw |].
  intros _. apply preserves_ret.
Qed.

Lemma preserves_Image (I : Escpos -> Prop)
    (decode : string -> image_Image + error)
    (params : gmap string string) (data : string) :
  sink_blind I -> preserves I (Image decode params data).
Proof.
  intros HI m x m' H E.
  destruct (emits_with_key params "Align" (fun align => SetAlign align)
              emits_SetAlign m) as [m1 [out [E1 [P1 _]]]].
  destruct (Image_unfolds decode params data m m1 E1) as (m2 & E2 & P2 & _).
  rewrite E2 in E.
  refine (preserves_bind I (PrintImage decode data) (fun _ => ret tt)
            (preserves_PrintImage I decode data HI) (fun _ => preserves_ret I tt)
            m2 x m' _ E).
  rewrite P2, P1. now apply sunk_blind.
Qed.

(** X9: every operation [WriteNode] dispatches to keeps the session well
    formed: if before the call the font scale is within 1..8 by 1..5 and
    every toggle is 0 or 1, the same holds after any call that returns,
    whatever the parameter map and the payload (values out of range,
    unparsable numbers and unknown names included). *)
Theorem WriteNode_keeps_wf (order : list (string * string))
    (decode : string -> image_Image + error)
    (params : gmap string string) (data : string) (m m' : World) :
  wf_style (printer m) ->
  WriteNode order decode params data m = Ret (tt, m') ->
  wf_style (printer m').
Proof.
  intros H E.
  destruct (WriteNode_dispatch order decode params data m _ _ eq_refl eq_refl)
    as [m1 [P1 E1]].
  rewrite E1 in E. rewrite <- P1 in H. revert E.
  set (name := match params !! "Name" with
               | Some name => if (name =? EmptyString)%string then "pulse"%string else name
               | None => EmptyString
               end).
  destruct (name =? "text")%string.
  { apply (preserves_Text wf_style order params data wf_sink_blind SetFontSize_wf);
      try exact H; intros e (Hw & Hh & Hu & He & Hup & Hro & Hrv);
      unfold wf_style; cbn; tauto. }
  destruct (name =? "feed")%string.
  { intros E. destruct (Feed_runs params m1) as [m2 [E2 P2]].
    rewrite E2 in E. inversion E; subst. rewrite P2.
    apply sunk_blind; [exact wf_sink_blind | apply wf_defaults]. }
  destruct (name =? "cut")%string.
  { intros E. destruct (FeedAndCut_runs params m1) as [m2 [E2 P2]].
    rewrite E2 in E. inversion E; subst. rewrite P2.
    now apply sunk_blind; [exact wf_sink_blind |]. }
  destruct (name =? "pulse")%string.
  { intros E. destruct (Pulse_sends m1) as [m2 [E2 [P2 _]]].
    rewrite E2 in E. inversion E; subst. rewrite P2.
    now apply sunk_blind; [exact wf_sink_blind |]. }
  destruct (name =? "image")%string.
  { apply (preserves_Image wf_style decode params data wf_sink_blind); exact H. }
  intros E. inversion E; subst. exact H.
Qed.

(** X9 on a text node asking for a width of 200. *)
Lemma WriteNode_keeps_wf_witness :
  exists m',
    WriteNode textReplaceMap sample_Decode
      {[ "Name" := "text"%string; "Width" := "200"%string ]} "hi" (fresh accepting)
      = Ret (tt, m') /\
    wf_style (printer m').
Proof.
  assert (H : exists m',
    WriteNode textReplaceMap sample_Decode
      {[ "Name" := "text"%string; "Width" := "200"%string ]} "hi" (fresh accepting)
      = Ret (tt, m'))
    by (eexists; vm_compute; reflexivity).
  destruct H as [m' E]. exists m'. split; [exact E |].
  apply (WriteNode_keeps_wf textReplaceMap sample_Decode
           {[ "Name" := "text"%string; "Width" := "200"%string ]} "hi"
           (fresh accepting) m'); [| exact E].
  unfold wf_style. cbn. repeat split; lia || tauto.
Defined.

(** ** Text, key by key *)

Lemma with_key_none (params : gmap string string) (k : string) (f : string -> M unit) :
  params !! k = None -> with_key params k f = ret tt.
Proof. intros H. unfold with_key. now rewrite H. Qed.

Lemma with_key_some (params : gmap string string) (k v : string) (f : string -> M unit) :
  params !! k = Some v -> with_key params k f = f v.
Proof. intros H. unfold with_key. now rewrite H. Qed.

Lemma bind_ret_l {X Y} (x : X) (k : X -> M Y) : bind (ret x) k = k x.
Proof. reflexivity. Qed.

Lemma len_bytes_of_string (s : string) : len (bytes_of_string s) = slen s.
Proof.
  unfold len, slen. f_equal. induction s as [| c s IH]; cbn; [reflexivity | now rewrite IH].
Qed.

(** The last step of [Text]: the payload, entities replaced, unless empty. *)
Lemma Text_payload (order : list (string * string)) (data : string) (m : World) :
  exists m',
    (let data := textReplace order data in
     if 0 <? slen data then _ <- Write data ;; ret tt else ret tt) m = Ret (tt, m') /\
    sends m (emitted (bytes_of_string (textReplace order data))) m'.
Proof.
  cbv zeta. unfold emitted at 1. rewrite len_bytes_of_string.
  destruct (0 <? slen (textReplace order data)) eqn:E.
  - destruct (sent_op (textReplace order data) m) as [m' [E' S]].
    exists m'. split; [exact E' |]. unfold emitted in S.
    now rewrite len_bytes_of_string, E in S.
  - exists m. split; [reflexivity | apply sends_refl].
Qed.

Ltac text_keys_of H :=
  unfold only, text_keys in H;
  repeat (apply Forall_cons in H; let K := fresh "K" in destruct H as [K H]);
  clear H.

Lemma total_SetFontSize (w h : Z) : total (SetFontSize w h).
Proof.
  unfold SetFontSize.
  destruct ((0 <? w) && (0 <? h) && (w <=? 8) && (h <=? 8)); [| apply total_log].
  intros m.
  destruct (sendFontSize_sends
    (mkWorld (set_height (if 5 <? h then 5 else h) (set_width w (printer m)))
             (beelog m ++ if 5 <? h
                          then [mkLog LevelWarn
                            "change height to 5, because height larger than 5 may cause some error" []]
                          else []))) as [m2 [E2 _]].
  exists m2. rewrite <- E2. unfold bind, log, ret, modify. cbn.
  destruct (5 <? h); cbn; [reflexivity |].
  destruct m as [e lg]. cbn. now rewrite app_nil_r.
Qed.

(** X10: a [Text] whose parameter map holds none of the names it looks
    up (other names are ignored) writes the payload with its entities
    replaced, in one chunk, or nothing when that is empty, and leaves the
    style fields alone. *)
Theorem Text_plain (order : list (string * string))
    (params : gmap string string) (data : string) (m : World) :
  Forall (fun k => params !! k = None) text_keys ->
  exists m',
    Text order params data m = Ret (tt, m') /\
    printer m' = sunk (emitted (bytes_of_string (textReplace order data))) (printer m).
Proof.
  intros H. unfold text_keys in H.
  repeat (apply Forall_cons in H; let K := fresh "K" in destruct H as [K H]).
  unfold Text. rewrite !with_key_none by assumption. rewrite !bind_ret_l.
  destruct (Text_payload order data m) as [m' [E [P _]]]. now exists m'.
Qed.

(** X10 on a map with an unknown name and a payload with an entity. *)
Lemma Text_plain_witness :
  exists m',
    Text textReplaceMap {[ "Bold" := "1"%string ]} "a&lt;b" (fresh accepting)
      = Ret (tt, m') /\
    printer m' = sunk [[97; 60; 98]] (printer (fresh accepting)).
Proof.
  apply (Text_plain textReplaceMap {[ "Bold" := "1"%string ]} "a&lt;b" (fresh accepting)).
  unfold text_keys. repeat constructor.
Defined.

Lemma slice_5_6 (font : string) :
  (6 <= String.length font)%nat ->
  exists c, String.get 5 font = Some c /\ slice font 5 6 = Ret (String c EmptyString).
Proof.
  intros H.
  do 6 (destruct font as [| ? font]; [cbn in H; lia |]).
  eexists. split; [reflexivity |]. unfold slice. cbn.
  destruct font; reflexivity.
Qed.

Lemma ToUpper_font_index (c : ascii) :
  (if (ToUpper (String c EmptyString) =? "B")%string then 1
   else if (ToUpper (String c EmptyString) =? "C")%string then 2 else 0)
  = (if Ascii.eqb c "b" || Ascii.eqb c "B" then 1
     else if Ascii.eqb c "c" || Ascii.eqb c "C" then 2 else 0).
Proof. destruct c as [[] [] [] [] [] [] [] []]; reflexivity. Qed.

(** X11: the font of a [Text] is chosen by the sixth byte of the Font
    value alone, upper or lower case: b gives font B (ESC M 1), c gives
    font C (ESC M 2), and any other byte, a included, gives ESC M 0. *)
Theorem Text_font_by_sixth_byte (order : list (string * string))
    (params : gmap string string) (font data : string) (m : World) :
  only params "Font" ->
  params !! "Font" = Some font ->
  (6 <= String.length font)%nat ->
  exists c m',
    String.get 5 font = Some c /\
    Text order params data m = Ret (tt, m') /\
    printer m' =
      sunk ([[27; 77; if Ascii.eqb c "b" || Ascii.eqb c "B" then 1
                      else if Ascii.eqb c "c" || Ascii.eqb c "C" then 2 else 0]] ++
            emitted (bytes_of_string (textReplace order data))) (printer m).
Proof.
  intros H HF Hlen. text_keys_of H.
  repeat match goal with
         | K : _ = "Font"%string \/ _ |- _ =>
             destruct K as [K | K]; [try discriminate K; clear K |]
         end.
  all: try congruence.
  destruct (slice_5_6 font Hlen) as [c [Hc Hs]].
  exists c. unfold Text.
  rewrite (with_key_some _ _ _ _ HF), !with_key_none by assumption.
  rewrite !bind_ret_l.
  destruct (SetFont_runs (ToUpper (String c EmptyString)) m) as (m1 & E1 & P1 & _).
  assert (EF : (f <- lift (slice font 5 6) ;; SetFont (ToUpper f)) m = Ret (tt, m1))
    by (rewrite (bind_run _ _ _ _ _ (lift_run _ _ m Hs)); exact E1).
  rewrite (bind_run _ _ _ _ _ EF). cbv beta.
  destruct (Text_payload order data m1) as [m' [E [P _]]].
  exists m'. split; [exact Hc |]. split; [exact E |].
  rewrite P, P1, sunk_sunk, ToUpper_font_index. reflexivity.
Qed.

(** X11 at the value font_b. *)
Lemma Text_font_by_sixth_byte_witness :
  exists c m',
    String.get 5 "font_b" = Some c /\
    Text textReplaceMap {[ "Font" := "font_b"%string ]} "hi" (fresh accepting)
      = Ret (tt, m') /\
    printer m' =
      sunk ([[27; 77; if Ascii.eqb c "b" || Ascii.eqb c "B" then 1
                      else if Ascii.eqb c "c" || Ascii.eqb c "C" then 2 else 0]] ++
            emitted (bytes_of_string (textReplace textReplaceMap "hi")))
           (printer (fresh accepting)).
Proof.
  apply (Text_font_by_sixth_byte textReplaceMap {[ "Font" := "font_b"%string ]}
           "font_b" "hi" (fresh accepting)).
  - unfold only, text_keys. repeat constructor; (now left) || (now right).
  - reflexivity.
  - cbn. lia.
Defined.

(** X12: a Width that does not parse as an integer is reported at level
    Critical and skipped: the font scale stays as it was and the payload is
    still written.  A Width that parses is handed to [SetFontSize] modulo
    256 (so 257 asks for width 1), with the height the session has. *)
Theorem Text_width_param (order : list (string * string))
    (params : gmap string string) (width data : string) (m : World) :
  only params "Width" ->
  params !! "Width" = Some width ->
  exists m',
    Text order params data m = Ret (tt, m') /\
    match Atoi width with
    | (i, None) =>
        exists m1,
          SetFontSize (i mod 256) (height (printer m)) m = Ret (tt, m1) /\
          printer m' =
            sunk (emitted (bytes_of_string (textReplace order data))) (printer m1)
    | (_, Some _) =>
        printer m' =
          sunk (emitted (bytes_of_string (textReplace order data))) (printer m) /\
        In (mkLog LevelCritical "Invalid font width: %s" [ArgStr width]) (beelog m')
    end.
Proof.
  intros H HW. text_keys_of H.
  repeat match goal with
         | K : _ = "Width"%string \/ _ |- _ =>
             destruct K as [K | K]; [try discriminate K; clear K |]
         end.
  all: try congruence.
  unfold Text.
  rewrite (with_key_some _ _ _ _ HW), !with_key_none by assumption.
  rewrite !bind_ret_l.
  destruct (Atoi width) as [i [err |]].
  - destruct (log_sends LevelCritical "Invalid font width: %s" [ArgStr width] m)
      as [m1 [E1 [[P1 _] L1]]].
    rewrite (bind_run _ _ _ _ _ E1). cbv beta.
    destruct (Text_payload order data m1) as [m' [E [P [lg L]]]].
    exists m'. split; [exact E |]. split.
    + rewrite P, P1, sunk_sunk. reflexivity.
    + rewrite L, L1, !in_app_iff. left. right. now left.
  - destruct (total_SetFontSize (uint8 i) (height (printer m)) m) as [m1 E1].
    assert (EW : (e <- get ;; SetFontSize (uint8 i) (height e)) m = Ret (tt, m1))
      by exact E1.
    rewrite (bind_run _ _ _ _ _ EW). cbv beta.
    destruct (Text_payload order data m1) as [m' [E [P _]]].
    exists m'. split; [exact E |]. exists m1. split; [exact E1 | exact P].
Qed.

(** X12 at the width 257. *)
Lemma Text_width_param_witness :
  exists m' m1,
    Text textReplaceMap {[ "Width" := "257"%string ]} "hi" (fresh accepting)
      = Ret (tt, m') /\
    SetFontSize 1 1 (fresh accepting) = Ret (tt, m1) /\
    printer m' = sunk [[104; 105]] (printer m1).
Proof.
  destruct (Text_width_param textReplaceMap {[ "Width" := "257"%string ]}
              "257" "hi" (fresh accepting)) as (m' & E & m1 & E1 & P).
  - unfold only, text_keys. repeat constructor; (now left) || (now right).
  - reflexivity.
  - exists m', m1. repeat split; assumption.
Defined.

(** ** Names [WriteNode] does not know *)

(** X13: a Name that is none of text, feed, cut, pulse and image (nor
    empty) selects nothing: the call returns and the session and its sink
    are as before.  The comparison is exact, so Text or CUT select nothing
    either. *)
Theorem WriteNode_unknown_name (order : list (string * string))
    (decode : string -> image_Image + error)
    (params : gmap string string) (name data : string) (m : World) :
  params !! "Name" = Some name ->
  name <> EmptyString -> name <> "text"%string -> name <> "feed"%string ->
  name <> "cut"%string -> name <> "pulse"%string -> name <> "image"%string ->
  exists m',
    WriteNode order decode params data m = Ret (tt, m') /\
    printer m' = printer m.
Proof.
  intros HN H0 H1 H2 H3 H4 H5.
  apply String.eqb_neq in H0, H1, H2, H3, H4, H5.
  destruct (WriteNode_dispatch order decode params data m (ret tt) name)
    as [m1 [P1 E1]].
  - now rewrite HN, H0.
  - now rewrite H1, H2, H3, H4, H5.
  - exists m1. split; [now rewrite E1 | exact P1].
Qed.

(** X13 at the name Text, with a capital. *)
Lemma WriteNode_unknown_name_witness :
  exists m',
    WriteNode textReplaceMap sample_Decode {[ "Name" := "Text"%string ]} "hi"
      (fresh accepting) = Ret (tt, m') /\
    printer m' = printer (fresh accepting).
Proof.
  apply (WriteNode_unknown_name textReplaceMap sample_Decode
           {[ "Name" := "Text"%string ]} "Text" "hi" (fresh accepting));
    (reflexivity || discriminate).
Defined.

(** ** Entity replacement *)

Lemma replace_from_absent (c0 : ascii) (old' new s : string) :
  Forall (fun c => c <> c0) (list_ascii_of_string s) ->
  replace_from (String c0 old') new O s = s.
Proof.
  induction s as [| c s IH]; intros H; [reflexivity |].
  cbn in H. apply Forall_cons in H. destruct H as [Hc Hs].
  cbn. destruct (ascii_dec c0 c) as [-> | _]; [congruence |].
  now rewrite IH.
Qed.

Lemma textReplaceMap_keys (kv : string * string) :
  In kv textReplaceMap -> exists old', fst kv = String "&" old'.
Proof.
  intros H. unfold textReplaceMap in H. cbn in H.
  repeat (destruct H as [<- | H]; [eexists; reflexivity |]). destruct H.
Qed.

(** X14: in whatever order the entries of the map are visited, a text
    with no ampersand in it comes out of [textReplace] unchanged. *)
Theorem textReplace_no_ampersand (order : list (string * string)) (data : string) :
  Forall (fun kv => In kv textReplaceMap) order ->
  Forall (fun c => c <> "&"%char) (list_ascii_of_string data) ->
  textReplace order data = data.
Proof.
  intros Ho Hd. unfold textReplace.
  induction Ho as [| kv order Hkv Ho IH]; [reflexivity |].
  cbn [fold_left]. destruct (textReplaceMap_keys kv Hkv) as [old' Hk].
  unfold Replace at 2. rewrite Hk, replace_from_absent by exact Hd. exact IH.
Qed.

(** X14 on a text with the other special characters. *)
Lemma textReplace_no_ampersand_witness :
  textReplace textReplaceMap "x < y; #9" = "x < y; #9"%string.
Proof.
  apply (textReplace_no_ampersand textReplaceMap "x < y; #9").
  - apply List.Forall_forall. intros kv H. exact H.
  - cbn. repeat constructor; discriminate.
Defined.

(** X15: the result of [textReplace] depends on the order in which the
    runtime visits the map, which the code does not fix: on the text
    &amp;lt; the order of the source, ampersand last, gives &lt; while an
    order with the ampersand first gives <. *)
Theorem textReplace_order_matters :
  exists order1 order2 data,
    order1 ≡ₚ textReplaceMap /\ order2 ≡ₚ textReplaceMap /\
    textReplace order1 data = "&lt;"%string /\
    textReplace order2 data = "<"%string.
Proof.
  exists textReplaceMap,
    (("&amp;", "&")%string :: take 8 textReplaceMap), "&amp;lt;"%string.
  split; [reflexivity |]. split; [| split; reflexivity].
  change textReplaceMap with (take 8 textReplaceMap ++ [("&amp;", "&")%string]) at 2.
  apply Permutation_cons_append.
Qed.

(** ** Loops that walk a slice *)

Lemma index_middle {T} (pre rest : list T) (t : T) :
  index (pre ++ t :: rest) (len pre) = Ret t.
Proof.
  unfold index, len. rewrite length_app. cbn [length].
  replace ((Z.of_nat (length pre) <? 0) ||
           (Z.of_nat (length pre + S (length rest)) <=? Z.of_nat (length pre)))
    with false
    by (symmetry; apply orb_false_intro; [apply Z.ltb_ge | apply Z.leb_gt]; lia).
  now rewrite Nat2Z.id, list_lookup_middle.
Qed.

Lemma store_middle {T} (pre rest : list T) (t v : T) :
  store (pre ++ t :: rest) (len pre) v = Ret (pre ++ v :: rest).
Proof.
  unfold store, len. rewrite length_app. cbn [length].
  replace ((Z.of_nat (length pre) <? 0) ||
           (Z.of_nat (length pre + S (length rest)) <=? Z.of_nat (length pre)))
    with false
    by (symmetry; apply orb_false_intro; [apply Z.ltb_ge | apply Z.leb_gt]; lia).
  rewrite Nat2Z.id, insert_app_r_alt, Nat.sub_diag by lia. reflexivity.
Qed.

(** Reading each element in turn and storing what [g] makes of it is a
    map, as long as [g] returns. *)
Lemma foldM_each {T} (g : T -> result T) (h : T -> T) (P : T -> Prop) :
  (forall t, P t -> g t = Ret (h t)) ->
  forall seg pre post,
    Forall P seg ->
    foldM (fun l i => rbind (index l i) (fun t => rbind (g t) (fun t' => store l i t')))
          (map Z.of_nat (seq (length pre) (length seg))) (pre ++ seg ++ post)
    = Ret (pre ++ map h seg ++ post).
Proof.
  intros Hg. induction seg as [| s seg IH]; intros pre post HP; [reflexivity |].
  apply Forall_cons in HP. destruct HP as [Hs HP].
  cbn [length seq map foldM app].
  fold (len pre). rewrite index_middle. cbn [rbind]. rewrite (Hg s Hs). cbn [rbind].
  rewrite store_middle. cbn [rbind].
  specialize (IH (pre ++ [h s]) post HP).
  rewrite length_app, Nat.add_1_r, <- !app_assoc in IH. exact IH.
Qed.

Lemma range_len {T} (l : list T) : range (len l) = map Z.of_nat (seq 0 (length l)).
Proof. unfold range, len. now rewrite Nat2Z.id. Qed.

(** The loop nest of [map_grid] is the pointwise map. *)
Lemma map_grid_map (f : pixel -> pixel) (w h : Z) (pixels : list (list pixel)) :
  grid w h pixels -> 1 <= h ->
  map_grid f pixels = Ret (map (map f) pixels).
Proof.
  intros Hg Hh. unfold map_grid.
  destruct (grid_row w h pixels 0 Hg) as [row0 [E0 W0]]; [lia |].
  rewrite E0. cbn [rbind]. destruct Hg as [Hlen Hrows].
  rewrite (range_len pixels).
  pose proof (foldM_each
    (fun row => foldM (fun row x => rbind (index row x) (fun pixel => store row x (f pixel)))
                      (range (len row0)) row)
    (map f) (fun row => len row = w)) as Houter.
  specialize (Houter ltac:(
    intros row Hrow; rewrite W0, <- Hrow, range_len;
    pose proof (foldM_each (fun t => Ret (f t)) f (fun _ => True)
                  (fun t _ => eq_refl) row [] [] ltac:(now apply Forall_true)) as Hin;
    cbn [app length] in Hin; rewrite !app_nil_r in Hin; exact Hin)).
  specialize (Houter pixels [] [] Hrows).
  cbn [app length] in Houter. rewrite !app_nil_r in Houter. exact Houter.
Qed.

Lemma blend_small (a c : Z) :
  0 <= a <= 255 -> 0 <= c <= 255 ->
  Z.quot (iadd (imul a c) (imul (isub 255 a) 255)) 255
  = (a * c + (255 - a) * 255) / 255.
Proof.
  intros Ha Hc. unfold iadd, imul, isub.
  rewrite (wrap_int_small (255 - a)) by lia.
  rewrite (wrap_int_small (a * c)) by nia.
  rewrite (wrap_int_small ((255 - a) * 255)) by nia.
  rewrite wrap_int_small by nia.
  apply Z.quot_div_nonneg; nia.
Qed.

Lemma blend_byte (a c : Z) :
  0 <= a <= 255 -> 0 <= c <= 255 ->
  0 <= (a * c + (255 - a) * 255) / 255 <= 255.
Proof.
  intros Ha Hc. assert (0 <= a * c + (255 - a) * 255 <= 65025) by nia. divlia.
Qed.

Lemma flatten_facts (p : pixel) :
  A (flatten p) = 255 /\
  (A p = 0 -> flatten p = mkPixel 255 255 255 255) /\
  (byte_pixel p -> byte_pixel (flatten p)) /\
  (byte_pixel p -> A p = 255 -> flatten p = p).
Proof.
  split; [reflexivity |]. split; [| split].
  - intros H0. unfold flatten. rewrite H0. reflexivity.
  - intros (HR & HG & HB & HA). unfold byte_pixel, flatten. cbn [R G B A].
    rewrite !blend_small by assumption.
    repeat split; try lia; now apply blend_byte.
  - intros (HR & HG & HB & HA) H255. destruct p as [r g b a]. cbn [R G B A] in *.
    unfold flatten. cbn [R G B A]. rewrite !blend_small by assumption. subst a.
    f_equal; divlia.
Qed.

(** X16: on a grid with at least one row [removeTransparency] returns
    the grid with every pixel composed over white, pixel by pixel.  Every
    pixel comes out opaque; a fully transparent one comes out white, its
    colour forgotten; a pixel of byte channels keeps byte channels, and an
    opaque one is unchanged. *)
Theorem removeTransparency_pointwise (w h : Z) (pixels : list (list pixel)) :
  grid w h pixels -> 1 <= h ->
  removeTransparency pixels = Ret (map (map flatten) pixels) /\
  forall p,
    A (flatten p) = 255 /\
    (A p = 0 -> flatten p = mkPixel 255 255 255 255) /\
    (byte_pixel p -> byte_pixel (flatten p)) /\
    (byte_pixel p -> A p = 255 -> flatten p = p).
Proof.
  intros Hg Hh. split; [| exact flatten_facts].
  exact (map_grid_map flatten w h pixels Hg Hh).
Qed.

(** X16 on one row holding a transparent red pixel and an opaque one. *)
Lemma removeTransparency_pointwise_witness :
  removeTransparency [[mkPixel 255 0 0 0; mkPixel 10 20 30 255]]
    = Ret [[mkPixel 255 255 255 255; mkPixel 10 20 30 255]].
Proof.
  destruct (removeTransparency_pointwise 2 1
              [[mkPixel 255 0 0 0; mkPixel 10 20 30 255]]) as [E _].
  - split; [reflexivity | repeat constructor].
  - lia.
  - exact E.
Defined.

Lemma gray_black (a : Z) : gray (mkPixel 0 0 0 a) = mkPixel 0 0 0 a.
Proof. vm_compute. reflexivity. Qed.

Lemma gray_white (a : Z) : gray (mkPixel 255 255 255 a) = mkPixel 255 255 255 a.
Proof. vm_compute. reflexivity. Qed.

Lemma gray_cases (p : pixel) :
  gray p = (if PrimFloat.ltb (luminance p) 128%float
            then mkPixel 0 0 0 (A p) else mkPixel 255 255 255 (A p)).
Proof. unfold gray. cbv zeta. now destruct (PrimFloat.ltb (luminance p) 128%float). Qed.

Lemma gray_facts (p : pixel) : gray (gray p) = gray p.
Proof.
  rewrite (gray_cases p). destruct (PrimFloat.ltb (luminance p) 128%float).
  - apply gray_black.
  - apply gray_white.
Qed.

(** X17: on a grid with at least one row [makeGrayscale] returns the
    grid with every pixel turned black or white, pixel by pixel, alpha
    kept; a pixel is black exactly when its luminance, computed in float64
    as in the source, is below 128.  Doing it twice changes nothing more:
    black stays black and white stays white. *)
Theorem makeGrayscale_pointwise (w h : Z) (pixels : list (list pixel)) :
  grid w h pixels -> 1 <= h ->
  makeGrayscale pixels = Ret (map (map gray) pixels) /\
  (forall p,
     gray p = (if PrimFloat.ltb (luminance p) 128%float
               then mkPixel 0 0 0 (A p) else mkPixel 255 255 255 (A p))) /\
  (rbind (makeGrayscale pixels) makeGrayscale = makeGrayscale pixels).
Proof.
  intros Hg Hh.
  assert (E : makeGrayscale pixels = Ret (map (map gray) pixels))
    by exact (map_grid_map gray w h pixels Hg Hh).
  split; [exact E |]. split.
  - exact gray_cases.
  - rewrite E. cbn [rbind].
    assert (Hg' : grid w h (map (map gray) pixels)).
    { destruct Hg as [Hl Hr]. split.
      - unfold len in *. now rewrite length_map.
      - apply Forall_map. eapply Forall_impl; [exact Hr |].
        intros row Hrow. cbn. unfold len in *. now rewrite length_map. }
    replace (makeGrayscale (map (map gray) pixels))
      with (Ret (A := list (list pixel)) (map (map gray) (map (map gray) pixels)))
      by (symmetry; exact (map_grid_map gray w h _ Hg' Hh)).
    f_equal. rewrite map_map. apply map_ext. intros row.
    rewrite map_map. apply map_ext. intros p. apply gray_facts.
Qed.

(** X17 on a row with a dark and a light pixel. *)
Lemma makeGrayscale_pointwise_witness :
  makeGrayscale [[mkPixel 10 20 30 255; mkPixel 200 220 240 255]]
    = Ret [[mkPixel 0 0 0 255; mkPixel 255 255 255 255]].
Proof.
  destruct (makeGrayscale_pointwise 2 1
              [[mkPixel 10 20 30 255; mkPixel 200 220 240 255]]) as [E _].
  - split; [reflexivity | repeat constructor].
  - lia.
  - exact E.
Defined.

(** ** What the bitmap holds *)

Lemma getPixelValue_bit (w h : Z) (pixels : list (list pixel)) (x y : Z) :
  grid w h pixels -> 0 <= x < w -> 0 <= y < h ->
  getPixelValue x y pixels = Ret (bit_at pixels x y).
Proof.
  intros Hg Hx Hy. unfold getPixelValue, bit_at. destruct Hg as [Hl Hr].
  destruct (index_ok pixels y) as [row [E L]]; [lia |].
  rewrite E, L. cbn [rbind].
  pose proof (Forall_lookup_1 _ _ _ _ Hr L) as W. cbn beta in W.
  destruct (index_ok row x) as [p [Ep Lp]]; [lia |].
  rewrite Ep, Lp. cbn [rbind]. now destruct (0 <? R p).
Qed.

Lemma foldM_ext {S X} (f g : S -> X -> result S) (Q : X -> Prop) (l : list X) (s : S) :
  Forall Q l -> (forall s x, Q x -> f s x = g s x) -> foldM f l s = foldM g l s.
Proof.
  intros Hl Hfg. revert s. induction Hl as [| x l Hx Hl IH]; intros s; [reflexivity |].
  cbn. rewrite (Hfg s x Hx). destruct (g s x); cbn; [apply IH | reflexivity].
Qed.

(** Storing [val x] at consecutive places fills a segment with the map. *)
Lemma foldM_store_seq {T X} (idx : X -> Z) (val : X -> T) (xs : list X) :
  forall pre seg post,
    length seg = length xs ->
    (forall p x, xs !! p = Some x -> idx x = len pre + Z.of_nat p) ->
    foldM (fun b x => store b (idx x) (val x)) xs (pre ++ seg ++ post)
    = Ret (pre ++ map val xs ++ post).
Proof.
  induction xs as [| x xs IH]; intros pre seg post Hlen Hidx.
  - destruct seg; [reflexivity | discriminate].
  - destruct seg as [| s0 seg]; [discriminate |]. injection Hlen as Hlen.
    cbn [foldM map app]. rewrite (Hidx O x eq_refl), Z.add_0_r, store_middle.
    cbn [rbind].
    specialize (IH (pre ++ [val x]) seg post Hlen).
    rewrite <- !app_assoc in IH. apply IH.
    intros p x' Hp. rewrite (Hidx (S p) x' Hp).
    unfold len. rewrite length_app. cbn [length]. lia.
Qed.

(** A loop that fills one segment of [q] places per step fills the
    slice with the segments put end to end. *)
Lemma foldM_rows {T Y} (F : list T -> Y -> result (list T)) (rowval : Y -> list T)
    (q : nat) (ys : list Y) :
  forall pre rest (off : nat),
    length pre = (off * q)%nat ->
    length rest = (length ys * q)%nat ->
    Forall (fun y => length (rowval y) = q) ys ->
    (forall p y pre seg post,
       ys !! p = Some y -> length pre = ((off + p) * q)%nat -> length seg = q ->
       F (pre ++ seg ++ post) y = Ret (pre ++ rowval y ++ post)) ->
    foldM F ys (pre ++ rest) = Ret (pre ++ concat (map rowval ys)).
Proof.
  induction ys as [| y ys IH]; intros pre rest off Hpre Hrest Hrows HF.
  - destruct rest; [reflexivity | discriminate].
  - apply Forall_cons in Hrows. destruct Hrows as [Hy Hrows].
    cbn [length] in Hrest. cbn [foldM map concat].
    rewrite <- (take_drop q rest).
    rewrite (HF O y pre (take q rest) (drop q rest) eq_refl);
      [| rewrite Nat.add_0_r; exact Hpre | rewrite length_take; lia].
    cbn [rbind]. rewrite !app_assoc.
    rewrite <- (app_assoc pre (rowval y) (concat (map rowval ys))).
    rewrite (app_assoc pre (rowval y)).
    apply (IH (pre ++ rowval y) (drop q rest) (S off)).
    + rewrite length_app, Hpre, Hy. lia.
    + rewrite length_drop, Hrest. lia.
    + exact Hrows.
    + intros p y' pre' seg post Hp Hpre' Hseg.
      apply (HF (S p) y' pre' seg post Hp); [| exact Hseg].
      rewrite Hpre'. f_equal. lia.
Qed.

Lemma range_lookup (n : Z) (p : nat) (y : Z) :
  range n !! p = Some y -> y = Z.of_nat p /\ 0 <= y < n.
Proof.
  intros H. pose proof (Forall_lookup_1 _ _ _ _ (range_bounds n) H) as Hb.
  split; [| exact Hb]. unfold range in H.
  change (map Z.of_nat (seq 0 (Z.to_nat n))) with (Z.of_nat <$> seq 0 (Z.to_nat n)) in H.
  rewrite list_lookup_fmap in H.
  destruct (seq 0 (Z.to_nat n) !! p) as [k |] eqn:E; [| discriminate].
  apply lookup_seq in E. destruct E as [-> _]. now injection H as <-.
Qed.

Lemma range8_lookup (n : Z) (p : nat) (x : Z) :
  0 <= n -> n mod 8 = 0 ->
  range8 n !! p = Some x -> x = 8 * Z.of_nat p /\ 0 <= x /\ x + 8 <= n.
Proof.
  intros Hn H8 H. unfold range8 in H.
  change (map (fun k => 8 * k) (range ((n + 7) / 8)))
    with ((fun k => 8 * k) <$> range ((n + 7) / 8)) in H.
  rewrite list_lookup_fmap in H.
  destruct (range ((n + 7) / 8) !! p) as [k |] eqn:E; [| discriminate].
  apply range_lookup in E. destruct E as [-> Hk]. injection H as <-.
  repeat split; divlia.
Qed.

Lemma length_range8 (n : Z) :
  0 <= n -> n mod 8 = 0 -> length (range8 n) = Z.to_nat (n / 8).
Proof.
  intros Hn H8. unfold range8, range. rewrite !length_map, length_seq.
  f_equal. divlia.
Qed.

(** One row of [rasterize]: the segment of the row is filled with its
    packed bytes. *)
Lemma rasterize_row (w h printWidth : Z) (pixels : list (list pixel)) (y : Z)
    (pre seg post : list Z) :
  grid w h pixels ->
  0 <= printWidth <= w -> printWidth mod 8 = 0 -> printWidth < 2 ^ 31 ->
  0 <= y < h -> y < 2 ^ 31 ->
  len pre = y * (printWidth / 8) ->
  length seg = Z.to_nat (printWidth / 8) ->
  foldM (fun bytes x =>
           let i := iadd (imul y (Z.shiftr printWidth 3)) (Z.shiftr x 3) in
           (v0 <- getPixelValue (iadd x 0) y pixels ;;
            v1 <- getPixelValue (iadd x 1) y pixels ;;
            v2 <- getPixelValue (iadd x 2) y pixels ;;
            v3 <- getPixelValue (iadd x 3) y pixels ;;
            v4 <- getPixelValue (iadd x 4) y pixels ;;
            v5 <- getPixelValue (iadd x 5) y pixels ;;
            v6 <- getPixelValue (iadd x 6) y pixels ;;
            v7 <- getPixelValue (iadd x 7) y pixels ;;
            store bytes i
              (byte (Z.lor (Z.lor (Z.lor (Z.lor (Z.lor (Z.lor (Z.lor
                 (Z.shiftl v0 7) (Z.shiftl v1 6)) (Z.shiftl v2 5))
                 (Z.shiftl v3 4)) (Z.shiftl v4 3)) (Z.shiftl v5 2))
                 (Z.shiftl v6 1)) v7)))%R)
        (range8 printWidth) (pre ++ seg ++ post)
  = Ret (pre ++ map (fun x => pack8 pixels x y) (range8 printWidth) ++ post).
Proof.
  intros Hg Hpw M8 Bw Hy By Hpre Hseg.
  rewrite (foldM_ext _
             (fun b x => store b (y * (printWidth / 8) + x / 8) (pack8 pixels x y))
             (fun x => 0 <= x /\ x + 8 <= printWidth /\ x mod 8 = 0)).
  - apply foldM_store_seq.
    + now rewrite length_range8 by lia.
    + intros p x Hp. apply range8_lookup in Hp; [| lia | exact M8].
      destruct Hp as (-> & _ & _). rewrite Hpre. divlia.
  - apply range8_bounds; lia.
  - intros b x (Hx0 & Hx8 & Hxm). cbv zeta.
    assert (Hadd : forall j, 0 <= j <= 7 -> iadd x j = x + j)
      by (intros j Hj; apply wrap_int_small; lia).
    rewrite !Hadd by lia.
    rewrite !(getPixelValue_bit w h pixels _ y Hg) by lia.
    cbn [rbind]. unfold pack8.
    rewrite !Z.shiftr_div_pow2 by lia. change (2 ^ 3) with 8.
    assert (Hq : 0 <= printWidth / 8 < 2 ^ 31) by divlia.
    assert (Hyq : 0 <= y * (printWidth / 8) < 2 ^ 62) by nia.
    unfold iadd, imul. rewrite (wrap_int_small (y * (printWidth / 8))) by lia.
    rewrite wrap_int_small by divlia. reflexivity.
Qed.

(** The loops of [rasterize] compute the bitmap row after row. *)
Lemma rasterize_packed (w h printWidth printHeight : Z) (pixels : list (list pixel)) :
  grid w h pixels ->
  0 <= printWidth <= w -> 0 <= printHeight <= h ->
  printWidth mod 8 = 0 -> printHeight mod 8 = 0 ->
  printWidth < 2 ^ 31 -> printHeight < 2 ^ 31 ->
  rasterize printWidth printHeight pixels
  = Ret (packed printWidth printHeight pixels, None).
Proof.
  intros Hg Hpw Hph Mw Mh Bw Bh. unfold rasterize, packed.
  rewrite (Z.rem_mod_nonneg printWidth 8), Mw by lia.
  rewrite (Z.rem_mod_nonneg printHeight 8), Mh by lia. cbn [Z.eqb negb].
  assert (Hmul : imul printWidth printHeight = printWidth * printHeight)
    by (apply wrap_int_small; nia).
  rewrite Hmul, Z.shiftr_div_pow2 by lia. change (2 ^ 3) with 8.
  set (q := printWidth / 8).
  assert (Hq : printWidth = 8 * q) by (unfold q; divlia).
  assert (Hn : printWidth * printHeight / 8 = q * printHeight).
  { rewrite Hq. replace (8 * q * printHeight) with (q * printHeight * 8) by lia.
    apply Z.div_mul. lia. }
  rewrite Hn. unfold make.
  replace (q * printHeight <? 0) with false by (symmetry; apply Z.ltb_ge; nia).
  cbn [rbind].
  pose proof (foldM_rows
    (fun bytes y =>
       foldM (fun bytes x =>
          let i := iadd (imul y (Z.shiftr printWidth 3)) (Z.shiftr x 3) in
          (v0 <- getPixelValue (iadd x 0) y pixels ;;
           v1 <- getPixelValue (iadd x 1) y pixels ;;
           v2 <- getPixelValue (iadd x 2) y pixels ;;
           v3 <- getPixelValue (iadd x 3) y pixels ;;
           v4 <- getPixelValue (iadd x 4) y pixels ;;
           v5 <- getPixelValue (iadd x 5) y pixels ;;
           v6 <- getPixelValue (iadd x 6) y pixels ;;
           v7 <- getPixelValue (iadd x 7) y pixels ;;
           store bytes i
             (byte (Z.lor (Z.lor (Z.lor (Z.lor (Z.lor (Z.lor (Z.lor
                (Z.shiftl v0 7) (Z.shiftl v1 6)) (Z.shiftl v2 5))
                (Z.shiftl v3 4)) (Z.shiftl v4 3)) (Z.shiftl v5 2))
                (Z.shiftl v6 1)) v7)))%R)
          (range8 printWidth) bytes)
    (fun y => map (fun x => pack8 pixels x y) (range8 printWidth))
    (Z.to_nat q) (range printHeight) [] (replicate (Z.to_nat (q * printHeight)) 0) O)
    as HR.
  cbn [app] in HR. rewrite HR; [reflexivity | reflexivity | | |].
  - rewrite length_replicate. unfold range. rewrite length_map, length_seq. nia.
  - apply Forall_forall. intros y _. rewrite length_map. apply length_range8; lia.
  - intros p y pre seg post Hp Hpre Hseg.
    apply range_lookup in Hp. destruct Hp as [-> Hy].
    apply (rasterize_row w h printWidth pixels (Z.of_nat p) pre seg post Hg);
      first [lia | exact Hseg | idtac].
    unfold len. rewrite Hpre. change (printWidth / 8) with q. nia.
Qed.

Lemma bit_at_01 (pixels : list (list pixel)) (x y : Z) :
  bit_at pixels x y = 0 \/ bit_at pixels x y = 1.
Proof.
  unfold bit_at. destruct (pixels !! Z.to_nat y) as [row |]; [| now left].
  destruct (row !! Z.to_nat x) as [p |]; [| now left].
  destruct (0 <? R p); [now left | now right].
Qed.

(** Eight bits, the first in the top place. *)
Lemma byte_of_bits (v0 v1 v2 v3 v4 v5 v6 v7 : Z) :
  (v0 = 0 \/ v0 = 1) -> (v1 = 0 \/ v1 = 1) -> (v2 = 0 \/ v2 = 1) ->
  (v3 = 0 \/ v3 = 1) -> (v4 = 0 \/ v4 = 1) -> (v5 = 0 \/ v5 = 1) ->
  (v6 = 0 \/ v6 = 1) -> (v7 = 0 \/ v7 = 1) ->
  byte (Z.lor (Z.lor (Z.lor (Z.lor (Z.lor (Z.lor (Z.lor
    (Z.shiftl v0 7) (Z.shiftl v1 6)) (Z.shiftl v2 5)) (Z.shiftl v3 4))
    (Z.shiftl v4 3)) (Z.shiftl v5 2)) (Z.shiftl v6 1)) v7)
  = 128 * v0 + 64 * v1 + 32 * v2 + 16 * v3 + 8 * v4 + 4 * v5 + 2 * v6 + v7.
Proof.
  intros [-> | ->] [-> | ->] [-> | ->] [-> | ->] [-> | ->] [-> | ->] [-> | ->] [-> | ->];
    reflexivity.
Qed.

Lemma concat_rows_lookup {T} (rows : list (list T)) (q i k : nat) :
  Forall (fun r => length r = q) rows -> (k < q)%nat ->
  concat rows !! (i * q + k)%nat = rows !! i ≫= (fun r => r !! k).
Proof.
  intros Hr Hk. revert i. induction Hr as [| r rows Hlen Hr IH]; intros i.
  - now destruct i.
  - cbn [concat]. destruct i as [| i].
    + cbn. apply lookup_app_l. lia.
    + rewrite lookup_app_r by (rewrite Hlen; lia).
      replace (S i * q + k - length r)%nat with (i * q + k)%nat by (rewrite Hlen; lia).
      apply IH.
Qed.

Lemma range_lookup_lt (n : Z) (p : nat) :
  Z.of_nat p < n -> range n !! p = Some (Z.of_nat p).
Proof.
  intros H. unfold range.
  change (map Z.of_nat (seq 0 (Z.to_nat n))) with (Z.of_nat <$> seq 0 (Z.to_nat n)).
  rewrite list_lookup_fmap, lookup_seq_lt by lia. reflexivity.
Qed.

Lemma packed_lookup (printWidth printHeight : Z) (pixels : list (list pixel))
    (y k : Z) :
  0 <= printWidth -> printWidth mod 8 = 0 ->
  0 <= y < printHeight -> 0 <= k < printWidth / 8 ->
  packed printWidth printHeight pixels !! Z.to_nat (y * (printWidth / 8) + k)
  = Some (pack8 pixels (8 * k) y).
Proof.
  intros Hw M8 Hy Hk. unfold packed.
  replace (Z.to_nat (y * (printWidth / 8) + k))
    with (Z.to_nat y * Z.to_nat (printWidth / 8) + Z.to_nat k)%nat by nia.
  rewrite (concat_rows_lookup _ (Z.to_nat (printWidth / 8))).
  - change (map (fun y0 => map (fun x => pack8 pixels x y0) (range8 printWidth))
                (range printHeight))
      with ((fun y0 => map (fun x => pack8 pixels x y0) (range8 printWidth))
              <$> range printHeight).
    rewrite list_lookup_fmap, range_lookup_lt by lia. cbn.
    unfold range8.
    change (map (fun x => pack8 pixels x (Z.of_nat (Z.to_nat y)))
                (map (fun k0 => 8 * k0) (range ((printWidth + 7) / 8))))
      with ((fun x => pack8 pixels x (Z.of_nat (Z.to_nat y))) <$>
              ((fun k0 => 8 * k0) <$> range ((printWidth + 7) / 8))).
    rewrite !list_lookup_fmap, range_lookup_lt by divlia. cbn.
    now rewrite !Z2Nat.id by lia.
  - apply Forall_map, Forall_forall. intros y0 _. cbn.
    rewrite length_map. now apply length_range8.
  - lia.
Qed.

(** X18: on a grid at least as large as the print size, both multiples
    of 8, [rasterize] returns no error and the bitmap [packed]: the byte
    at place y * (printWidth / 8) + k packs the eight pixels from column
    8k of row y, the leftmost in the top bit, a bit being 1 exactly where
    the red channel is not above 0. *)
Theorem rasterize_bits (w h printWidth printHeight : Z) (pixels : list (list pixel)) :
  grid w h pixels ->
  0 <= printWidth <= w -> 0 <= printHeight <= h ->
  printWidth mod 8 = 0 -> printHeight mod 8 = 0 ->
  printWidth < 2 ^ 31 -> printHeight < 2 ^ 31 ->
  rasterize printWidth printHeight pixels
    = Ret (packed printWidth printHeight pixels, None) /\
  forall y k,
    0 <= y < printHeight -> 0 <= k < printWidth / 8 ->
    packed printWidth printHeight pixels !! Z.to_nat (y * (printWidth / 8) + k)
      = Some (128 * bit_at pixels (8 * k + 0) y + 64 * bit_at pixels (8 * k + 1) y +
              32 * bit_at pixels (8 * k + 2) y + 16 * bit_at pixels (8 * k + 3) y +
              8 * bit_at pixels (8 * k + 4) y + 4 * bit_at pixels (8 * k + 5) y +
              2 * bit_at pixels (8 * k + 6) y + bit_at pixels (8 * k + 7) y).
Proof.
  intros Hg Hpw Hph Mw Mh Bw Bh. split.
  - now apply (rasterize_packed w h).
  - intros y k Hy Hk. rewrite packed_lookup by lia. f_equal.
    unfold pack8. apply byte_of_bits; apply bit_at_01.
Qed.

(** X18 on the 8x8 grid with a black left column. *)
Lemma rasterize_bits_witness :
  rasterize 8 8 left_column8 = Ret (packed 8 8 left_column8, None) /\
  packed 8 8 left_column8 !! 3%nat = Some 128.
Proof.
  assert (Hg : grid 8 8 left_column8) by (split; [reflexivity | repeat constructor]).
  destruct (rasterize_bits 8 8 8 8 left_column8 Hg) as [E L];
    [lia | lia | reflexivity | reflexivity | lia | lia |].
  split; [exact E |]. exact (L 3 0 ltac:(lia) ltac:(change (8 / 8) with 1; lia)).
Defined.

(** ** The whole pipeline *)

Lemma getPixels_pixels_of (decode : string -> image_Image + error) (data : string)
    (img : image_Image) :
  decode data = inl img ->
  getPixels decode data = (Max_X img, Max_Y img, pixels_of img, None).
Proof.
  intros D. unfold getPixels, pixels_of. rewrite D.
  rewrite (fold_left_snoc
             (fun y => fold_left (fun row x => row ++ [rgbaToPixel (At img x y)])
                                 (range (Max_X img)) [])).
  cbn [app]. do 2 f_equal. apply map_ext. intros y.
  now rewrite (fold_left_snoc (fun x => rgbaToPixel (At img x y))).
Qed.

Lemma grid_pixels_of (img : image_Image) :
  0 <= Max_X img -> 0 <= Max_Y img -> grid (Max_X img) (Max_Y img) (pixels_of img).
Proof.
  intros Hw Hh. unfold pixels_of. split.
  - unfold len. rewrite length_map. now apply len_range.
  - apply Forall_map, Forall_forall. intros y _. cbn.
    unfold len. rewrite length_map. now apply len_range.
Qed.

Lemma grid_map (f : pixel -> pixel) (w h : Z) (pixels : list (list pixel)) :
  grid w h pixels -> grid w h (map (map f) pixels).
Proof.
  intros [Hl Hr]. split.
  - unfold len in *. now rewrite length_map.
  - apply Forall_map. eapply Forall_impl; [exact Hr |].
    intros row Hrow. cbn. unfold len in *. now rewrite length_map.
Qed.

(** [PrintImage] on a payload that decodes, step by step. *)
Lemma PrintImage_runs (decode : string -> image_Image + error) (data : string)
    (img : image_Image) (m : World) :
  decode data = inl img ->
  0 <= Max_X img < 2 ^ 31 ->
  1 <= Max_Y img < 2 ^ 31 ->
  exists m',
    PrintImage decode data m = Ret (None, m') /\
    printer m' =
      sunk [[29; 118; 48; 0] ++
            [Z.land (Z.shiftr (Max_X img) 3) 255;
             Z.land (Z.shiftr (Z.shiftr (Max_X img) 3) 8) 255;
             Z.land (Max_Y img) 255;
             Z.land (Z.shiftr (Max_Y img) 8) 255] ++
            packed (Max_X img / 8 * 8) (Max_Y img / 8 * 8)
                   (map (map gray) (map (map flatten) (pixels_of img)))]
           (printer m).
Proof.
  intros D Hw Hh.
  pose proof (grid_pixels_of img ltac:(lia) ltac:(lia)) as G0.
  pose proof (map_grid_map flatten _ _ _ G0 ltac:(lia)) as E1.
  pose proof (grid_map flatten _ _ _ G0) as G1.
  pose proof (map_grid_map gray _ _ _ G1 ltac:(lia)) as E2.
  pose proof (grid_map gray _ _ _ G1) as G2.
  pose proof (rasterize_packed (Max_X img) (Max_Y img)
                (Max_X img / 8 * 8) (Max_Y img / 8 * 8) _ G2
                ltac:(divlia) ltac:(divlia) ltac:(divlia) ltac:(divlia)
                ltac:(divlia) ltac:(divlia)) as E3.
  unfold PrintImage. rewrite (getPixels_pixels_of decode data img D).
  rewrite (bind_run _ _ _ _ _ (lift_run _ _ m E1)).
  rewrite (bind_run _ _ _ _ _ (lift_run _ _ m E2)).
  rewrite !closestNDivisibleBy8_floor by lia.
  rewrite (bind_run _ _ _ _ _ (lift_run _ _ m E3)).
  cbv zeta. cbn [fst]. rewrite !byte_land.
  match goal with
  | |- context [WriteRaw ?d] => destruct (WriteRaw_sends d m) as [m' [E4 [P4 _]]]
  end.
  rewrite (bind_run _ _ _ _ _ E4).
  exists m'. split; [reflexivity |]. rewrite P4. cbn [app]. now rewrite emitted_cons.
Qed.

(** X19: for every payload that decodes to an image with at least one
    row, [PrintImage] writes one chunk, the header, the four dimension
    bytes and the bitmap of the image: each pixel [At(x, y)] shifted down
    to bytes, composed over white, turned black or white, and packed
    eight to a byte over the first floor(w/8)*8 columns of the first
    floor(h/8)*8 rows. *)
Theorem PrintImage_bitmap (decode : string -> image_Image + error) (data : string)
    (img : image_Image) (m : World) :
  decode data = inl img ->
  0 <= Max_X img < 2 ^ 31 ->
  1 <= Max_Y img < 2 ^ 31 ->
  exists m',
    PrintImage decode data m = Ret (None, m') /\
    printer m' =
      sunk [[29; 118; 48; 0] ++
            [Z.land (Z.shiftr (Max_X img) 3) 255;
             Z.land (Z.shiftr (Z.shiftr (Max_X img) 3) 8) 255;
             Z.land (Max_Y img) 255;
             Z.land (Z.shiftr (Max_Y img) 8) 255] ++
            packed (Max_X img / 8 * 8) (Max_Y img / 8 * 8)
                   (map (map gray) (map (map flatten) (pixels_of img)))]
           (printer m).
Proof. apply PrintImage_runs. Qed.

(** X19 on the 8x8 black PNG. *)
Lemma PrintImage_bitmap_witness :
  exists m',
    PrintImage sample_Decode black8_png (fresh accepting) = Ret (None, m') /\
    printer m' =
      sunk [[29; 118; 48; 0; 1; 0; 8; 0] ++
            packed 8 8 (map (map gray) (map (map flatten) (pixels_of black8)))]
           (printer (fresh accepting)).
Proof.
  apply (PrintImage_bitmap sample_Decode black8_png black8 (fresh accepting)).
  - reflexivity.
  - split; [discriminate | reflexivity].
  - split; [discriminate | reflexivity].
Defined.

Lemma bit_at_grid (f : pixel -> pixel) (img : image_Image) (x y : Z) :
  0 <= x < Max_X img -> 0 <= y < Max_Y img ->
  bit_at (map (map f) (pixels_of img)) x y
  = if 0 <? R (f (rgbaToPixel (At img x y))) then 0 else 1.
Proof.
  intros Hx Hy. unfold bit_at, pixels_of.
  rewrite map_map.
  change (map (fun y0 => map f (map (fun x0 => rgbaToPixel (At img x0 y0))
                                    (range (Max_X img)))) (range (Max_Y img)))
    with ((fun y0 => map f (map (fun x0 => rgbaToPixel (At img x0 y0))
                                (range (Max_X img)))) <$> range (Max_Y img)).
  rewrite list_lookup_fmap, range_lookup_lt by lia. cbn.
  rewrite map_map.
  change (map (fun x0 => f (rgbaToPixel (At img x0 (Z.of_nat (Z.to_nat y)))))
              (range (Max_X img)))
    with ((fun x0 => f (rgbaToPixel (At img x0 (Z.of_nat (Z.to_nat y)))))
            <$> range (Max_X img)).
  rewrite list_lookup_fmap, range_lookup_lt by lia. cbn.
  now rewrite !Z2Nat.id by lia.
Qed.

(** X20: the columns past floor(w/8)*8 and the rows past floor(h/8)*8
    are dropped.  Two payloads that decode to images of the same size,
    with the same colours on the first floor(w/8)*8 columns of the first
    floor(h/8)*8 rows, leave the same bytes in the sink, whatever the
    rest of the images holds. *)
Theorem PrintImage_drops_trailing (decode : string -> image_Image + error)
    (data1 data2 : string) (img1 img2 : image_Image) (m : World) :
  decode data1 = inl img1 -> decode data2 = inl img2 ->
  Max_X img2 = Max_X img1 -> Max_Y img2 = Max_Y img1 ->
  0 <= Max_X img1 < 2 ^ 31 -> 1 <= Max_Y img1 < 2 ^ 31 ->
  (forall x y, 0 <= x < Max_X img1 / 8 * 8 -> 0 <= y < Max_Y img1 / 8 * 8 ->
               At img2 x y = At img1 x y) ->
  sink_of (PrintImage decode data2 m) = sink_of (PrintImage decode data1 m).
Proof.
  intros D1 D2 EX EY Hw Hh Hsame.
  destruct (PrintImage_runs decode data1 img1 m D1 Hw Hh) as [m1 [E1 P1]].
  destruct (PrintImage_runs decode data2 img2 m D2) as [m2 [E2 P2]];
    [rewrite EX; exact Hw | rewrite EY; exact Hh |].
  assert (HP :
    packed (Max_X img1 / 8 * 8) (Max_Y img1 / 8 * 8)
           (map (map gray) (map (map flatten) (pixels_of img2)))
    = packed (Max_X img1 / 8 * 8) (Max_Y img1 / 8 * 8)
             (map (map gray) (map (map flatten) (pixels_of img1)))).
  { unfold packed. f_equal. apply map_ext_in. intros y Hy.
    apply map_ext_in. intros x Hx.
    apply list_elem_of_In in Hy, Hx.
    apply list_elem_of_lookup in Hy, Hx. destruct Hy as [py Hy], Hx as [px Hx].
    apply range_lookup in Hy. destruct Hy as [_ Hy].
    apply range8_lookup in Hx; [| divlia | divlia]. destruct Hx as (_ & Hx0 & Hx8).
    assert (Hmm : forall img,
      map (map gray) (map (map flatten) (pixels_of img))
      = map (map (fun p => gray (flatten p))) (pixels_of img)).
    { intros img. rewrite map_map. apply map_ext. intros row. apply map_map. }
    assert (Hbit : forall j, 0 <= j <= 7 ->
      bit_at (map (map (fun p => gray (flatten p))) (pixels_of img2)) (x + j) y
      = bit_at (map (map (fun p => gray (flatten p))) (pixels_of img1)) (x + j) y).
    { intros j Hj.
      rewrite !bit_at_grid by (rewrite ?EX, ?EY; divlia).
      rewrite Hsame by lia. reflexivity. }
    unfold pack8. rewrite !Hmm, !Hbit by lia. reflexivity. }
  rewrite E1, E2. cbn [sink_of]. rewrite P1, P2, EX, EY, HP. reflexivity.
Qed.

(** X20 on the two 9x9 PNGs, which differ in the ninth column and row. *)
Lemma PrintImage_drops_trailing_witness :
  sink_of (PrintImage nine_Decode framed9_png (fresh accepting))
  = sink_of (PrintImage nine_Decode black9_png (fresh accepting)).
Proof.
  apply (PrintImage_drops_trailing nine_Decode black9_png framed9_png black9 framed9
           (fresh accepting)); try reflexivity.
  - split; [discriminate | reflexivity].
  - split; [discriminate | reflexivity].
  - intros x y Hx Hy. change (Max_X black9 / 8 * 8) with 8 in Hx.
    change (Max_Y black9 / 8 * 8) with 8 in Hy. cbn [At framed9 black9].
    replace ((0 <=? x) && (x <? 8) && (0 <=? y) && (y <? 8)) with true
      by (symmetry; repeat (apply andb_true_intro; split); lia).
    replace ((0 <=? x) && (x <? 9) && (0 <=? y) && (y <? 9)) with true
      by (symmetry; repeat (apply andb_true_intro; split); lia).
    reflexivity.
Defined.

(** X21: a decoded image with no rows makes [PrintImage] panic on
    [pixels[0]], before anything is written: the pipeline is not total
    over the images a decoder may hand back. *)
Theorem PrintImage_no_rows (decode : string -> image_Image + error) (data : string)
    (img : image_Image) (m : World) :
  decode data = inl img ->
  Max_Y img <= 0 ->
  PrintImage decode data m = Panic "runtime error: index out of range".
Proof.
  intros D Hh. unfold PrintImage. rewrite (getPixels_pixels_of decode data img D).
  unfold pixels_of, range. replace (Z.to_nat (Max_Y img)) with O by lia.
  reflexivity.
Qed.

(** X21 on the decoder that hands back an image without rows. *)
Lemma PrintImage_no_rows_witness :
  PrintImage empty_Decode black8_png (fresh accepting)
    = Panic "runtime error: index out of range".
Proof.
  apply (PrintImage_no_rows empty_Decode black8_png
           (mkImage 0 0 (fun _ _ => (0, 0, 0, 0))) (fresh accepting)).
  - reflexivity.
  - cbn. lia.
Defined.

(** ** Rounding to eight *)

(** X22: [closestNDivisibleBy8] does not round to the closest multiple
    of 8: for every [int] it rounds toward zero, so a non-negative [n]
    goes down to the multiple of 8 at most 7 below it (15 gives 8, not
    16), and a negative [n] goes up. *)
Theorem closestNDivisibleBy8_toward_zero (n : Z) :
  - 2 ^ 63 <= n < 2 ^ 63 ->
  closestNDivisibleBy8 n mod 8 = 0 /\
  (0 <= n -> n - 7 <= closestNDivisibleBy8 n <= n) /\
  (n <= 0 -> n <= closestNDivisibleBy8 n <= n + 7).
Proof.
  intros H. unfold closestNDivisibleBy8, imul.
  rewrite wrap_int_small by divlia. repeat split; intros; divlia.
Qed.

(** X22 at 15. *)
Lemma closestNDivisibleBy8_toward_zero_witness :
  closestNDivisibleBy8 15 mod 8 = 0 /\ 15 - 7 <= closestNDivisibleBy8 15 <= 15.
Proof.
  destruct (closestNDivisibleBy8_toward_zero 15) as (H1 & H2 & _).
  - split; [discriminate | reflexivity].
  - split; [exact H1 | apply H2; lia].
Defined.
